(** * The MCP WebSocket server of the VS Code extension: protocol layer and
      typing engine

    A shallow embedding of the extension's server code (the [activate]
    function: [verifyClient], the per-socket [message] handler with its
    action handlers, [sendResponse] and [sendError]) and the properties
    of the command protocol and of the typing engine that hold of it.

    Modelling conventions.
    - JavaScript numbers are exact rationals ([Q]); line and character
      numbers are integers ([Z]).  Strings are [string]; [text.length] is
      [String.length] and [for (const ch of text)] visits the characters
      one by one (text of the Basic Multilingual Plane).
    - The editor (the [vscode] API), the configuration, [Math.random] and
      the [Buffer] codec are the environment: a type class [Host].
    - A handler is a computation in a state-and-exception monad over a
      [World]: the state of the host, the chronological trace of what the
      handler did ([Event]) and the number of [Math.random] draws.  A
      JavaScript exception keeps the state reached when it was thrown.
    - [await] is sequencing: one handler run is modelled, not the
      interleaving of several. *)

From Stdlib Require Import ZArith QArith Qfield Lqa Lia List String Ascii Bool.
From Stdlib Require Import Strings.Byte DecimalString.
Import ListNotations.

Set Warnings "-register-all".
Local Open Scope Z_scope.
Local Open Scope string_scope.

(** ** JSON values and JavaScript truthiness *)

Inductive JSON : Type :=
| JNull
| JBool (b : bool)
| JNum (q : Q)
| JStr (s : string)
| JArr (items : list JSON)
| JObj (fields : list (string * JSON)).

Definition str_truthy (s : string) : bool :=
  match s with EmptyString => false | String _ _ => true end.

Definition num_truthy (q : Q) : bool := negb (Qeq_bool q 0).

Definition truthy (v : JSON) : bool :=
  match v with
  | JNull => false
  | JBool b => b
  | JNum q => num_truthy q
  | JStr s => str_truthy s
  | JArr _ | JObj _ => true
  end.

(** [v || null] for a property that may be absent ([None] is [undefined]). *)
Definition or_null (v : option JSON) : JSON :=
  match v with
  | Some x => if truthy x then x else JNull
  | None => JNull
  end.

(** [s || d] and [!s] for an optional string property. *)
Definition opt_truthy (s : option string) : bool :=
  match s with Some x => str_truthy x | None => false end.

Definition str_or (s : option string) (d : string) : string :=
  match s with
  | Some x => if str_truthy x then x else d
  | None => d
  end.

(** [n || 0] for an optional integer property. *)
Definition int_or_0 (n : option Z) : Z :=
  match n with Some x => x | None => 0 end.

(** [q || 0] for an optional number property. *)
Definition num_or_0 (q : option Q) : Q :=
  match q with
  | Some x => if num_truthy x then x else 0%Q
  | None => 0%Q
  end.

(** Decimal rendering of a length inside a template string. *)
Definition decimal (n : nat) : string := NilEmpty.string_of_uint (Nat.to_uint n).

Definition cat (a b : string) : string := String.append a b.

(** ** Wire data *)

Record RawPosition : Type := { raw_line : option Z; raw_character : option Z }.

Record RawSelection : Type := { raw_start : RawPosition; raw_end : RawPosition }.

(** The [params] object, one optional field per property the handlers read. *)
Record Params : Type := {
  p_path : option string;
  p_content : option string;
  p_command : option string;
  p_args : option (list JSON);
  p_text : option string;
  p_speed : option Q;
  p_variation : option Q;
  p_duration : option Q;
  p_quick : option bool;
  p_mode : option string;
  p_position : option RawPosition;
  p_selection : option RawSelection;
  p_afterCursor : option RawPosition
}.

Definition no_params : Params :=
  {| p_path := None; p_content := None; p_command := None; p_args := None;
     p_text := None; p_speed := None; p_variation := None; p_duration := None;
     p_quick := None; p_mode := None; p_position := None; p_selection := None;
     p_afterCursor := None |}.

(** A decoded inbound message (a JSON object). *)
Record Message : Type := {
  m_id : option JSON;
  m_action : option string;
  m_method : option string;
  m_params : option Params
}.

(** What the server writes on the socket. *)
Inductive Outbound : Type :=
| Result (id : JSON) (result : JSON)
| Error (id : JSON) (error : string)
| BareError (error : string).

(** ** The editor surface *)

Record Position : Type := { line : Z; character : Z }.

Record Selection : Type := { anchor : Position; active : Position }.

Definition position_eqb (a b : Position) : bool :=
  Z.eqb (line a) (line b) && Z.eqb (character a) (character b).

Definition isEmpty (s : Selection) : bool := position_eqb (anchor s) (active s).

Definition cursor (p : Position) : Selection := {| anchor := p; active := p |}.

Inductive outcome (A : Type) : Type :=
| Ok (a : A)
| Throw (err : string).
Arguments Ok {A} a.
Arguments Throw {A} err.

(** The environment of the extension.  [E] is the state of the editor
    host.  Operations that change it return the new state together with
    their outcome; [err] of [Throw] is the text [err.message || err]. *)
Class Host (E : Type) : Type := {
  (* configuration and runtime *)
  defaultSpeed : Q;                                   (* defaultTypingSpeed *)
  Math_random : nat -> Q;                             (* the n-th draw *)
  Buffer_from : string -> list byte;                  (* Buffer.from(s, 'utf8') *)
  Buffer_toString : list byte -> string;              (* buf.toString('utf-8') *)
  (* workspace *)
  fs_stat : string -> E -> bool;                      (* does stat resolve *)
  fs_readFile : string -> E -> outcome (list byte);
  fs_writeFile : string -> list byte -> E -> outcome unit * E;
  openAndShow : string -> E -> outcome unit * E;      (* openTextDocument, showTextDocument *)
  visibleEditors : string -> E -> nat;                (* visible editors on a path *)
  tabGroups_close : string -> E -> outcome unit * E;
  executeCommand : string -> list JSON -> E -> outcome (option JSON) * E;
  (* the active text editor *)
  activeTextEditor : E -> bool;
  fileName : E -> string;
  getText : E -> string;
  doc_lines : E -> list string;
  document_save : E -> outcome unit * E;
  selection : E -> Selection;
  set_selection : Selection -> E -> E;
  edit_delete : Selection -> E -> outcome unit * E;
  edit_insert : Position -> string -> E -> outcome unit * E
}.

(** What a handler did, in order. *)
Inductive Event : Type :=
| EvSelect (s : Selection)                 (* editor.selection = s *)
| EvDelete (s : Selection)                 (* editBuilder.delete(s) *)
| EvInsert (p : Position) (t : string)     (* editBuilder.insert(p, t) *)
| EvSleep (ms : Q)                         (* setTimeout(res, ms) awaited *)
| EvCommand (name : string) (args : list JSON)
| EvSend (m : Outbound).                   (* socket.send *)

Record World (E : Type) : Type := {
  host : E;
  trace : list Event;
  draws : nat
}.
Arguments host {E} w.
Arguments trace {E} w.
Arguments draws {E} w.

(** ** The handler monad *)

Definition M (E A : Type) : Type := World E -> outcome A * World E.

Definition ret {E A} (a : A) : M E A := fun w => (Ok a, w).

Definition throw {E A} (err : string) : M E A := fun w => (Throw err, w).

Definition bind {E A B} (m : M E A) (k : A -> M E B) : M E B :=
  fun w =>
    match m w with
    | (Ok a, w') => k a w'
    | (Throw err, w') => (Throw err, w')
    end.

(** [try { m } catch (err) { h err }] *)
Definition try_catch {E A} (m : M E A) (h : string -> M E A) : M E A :=
  fun w =>
    match m w with
    | (Ok a, w') => (Ok a, w')
    | (Throw err, w') => h err w'
    end.

Declare Scope handler_scope.
Delimit Scope handler_scope with handler.
Notation "x <- m ;; k" := (bind m (fun x => k))
  (at level 61, m at next level, right associativity) : handler_scope.
Notation "m ;; k" := (bind m (fun _ => k))
  (at level 61, right associativity) : handler_scope.

Definition emit {E} (ev : Event) : M E unit :=
  fun w => (Ok tt, {| host := host w; trace := trace w ++ [ev]; draws := draws w |}).

(** Read the host state. *)
Definition gets {E A} (f : E -> A) : M E A := fun w => (Ok (f (host w)), w).

(** Run a host operation. *)
Definition call {E A} (op : E -> outcome A * E) : M E A :=
  fun w =>
    let (r, e) := op (host w) in
    (r, {| host := e; trace := trace w; draws := draws w |}).

(** Lift a result that may be an exception. *)
Definition lift_outcome {E A} (r : outcome A) : M E A := fun w => (r, w).

(** ** Admission of a connection: [verifyClient] *)

Fixpoint string_drop (n : nat) (s : string) : string :=
  match n, s with
  | O, _ => s
  | S n', String _ s' => string_drop n' s'
  | S _, EmptyString => EmptyString
  end.

(** [s.replace(pat, rep)] with a string pattern: the first occurrence only. *)
Fixpoint replace_first (pat rep s : string) : string :=
  if String.prefix pat s then cat rep (string_drop (String.length pat) s)
  else match s with
       | EmptyString => EmptyString
       | String c s' => String c (replace_first pat rep s')
       end.

(** What [verifyClient] reads of the upgrade request:
    [url.searchParams.get('token')] and [headers['authorization']]. *)
Record UpgradeRequest : Type := {
  query_token : option string;
  authorization : option string
}.

Inductive Admission : Type :=
| Accepted                                   (* callback(true) *)
| Rejected (code : Z) (reason : string).     (* callback(false, code, reason) *)

Definition same_token (candidate : option string) (authToken : option string) : bool :=
  match candidate, authToken with
  | Some c, Some t => str_truthy c && String.eqb c t
  | _, _ => false
  end.

Definition headerToken (req : UpgradeRequest) : option string :=
  match authorization req with
  | Some authHeader =>
      if str_truthy authHeader then Some (replace_first "Bearer " EmptyString authHeader)
      else None
  | None => None
  end.

Definition verifyClient (authEnabled : bool) (authToken : option string)
    (req : UpgradeRequest) : Admission :=
  if authEnabled && negb (opt_truthy authToken) then
    Rejected 401 "Authentication token not configured on server"
  else
    let clientToken := query_token req in
    let tokenMatches :=
      same_token clientToken authToken || same_token (headerToken req) authToken in
    if tokenMatches then Accepted
    else Rejected 401 "Invalid authentication token".

(** The server installs [verifyClient] only when authentication is enabled. *)
Definition connectionVerdict (authEnabled : bool) (authToken : option string)
    (req : UpgradeRequest) : Admission :=
  if authEnabled then verifyClient authEnabled authToken req else Accepted.

(** ** The message handler *)

Definition dq : string := String "034"%char EmptyString.

Definition quoted (s : string) : string := cat dq (cat s dq).

Section Server.
Context {E : Type} `{Host E}.
Local Open Scope handler_scope.

Definition sendResponse (id : JSON) (result : JSON) : M E unit :=
  match id with
  | JNull => ret tt                  (* a notification: no response *)
  | _ => emit (EvSend (Result id result))
  end.

Definition sendError (id : JSON) (errorMsg : string) : M E unit :=
  emit (EvSend (Error id errorMsg)).

Definition runVSCodeCommand (name : string) (args : list JSON) : M E (option JSON) :=
  emit (EvCommand name args) ;;
  call (executeCommand name args).

Definition openFile (id : JSON) (params : Params) : M E unit :=
  if negb (opt_truthy (p_path params)) then
    sendError id (cat "Missing " (cat (quoted "path") " parameter"))
  else
    let path := str_or (p_path params) EmptyString in
    try_catch
      (call (openAndShow path) ;;
       sendResponse id (JStr (cat "Opened file: " path)))
      (fun _ =>
       sendError id (cat "Could not open file (not found or inaccessible): " path)).

Definition createFile (id : JSON) (params : Params) : M E unit :=
  if negb (opt_truthy (p_path params)) then
    sendError id (cat "Missing " (cat (quoted "path") " parameter"))
  else
    let path := str_or (p_path params) EmptyString in
    fileExists <- gets (fs_stat path) ;;
    if fileExists : bool then
      sendError id (cat "File already exists: " path)
    else
      let contentText := str_or (p_content params) EmptyString in
      let contentBytes := Buffer_from contentText in
      try_catch
        (call (fs_writeFile path contentBytes) ;;
         call (openAndShow path) ;;
         sendResponse id (JStr (cat "Created file: " path)))
        (fun err => sendError id (cat "Failed to create file: " err)).

Definition saveFile (id : JSON) : M E unit :=
  editor <- gets activeTextEditor ;;
  if negb editor then sendError id "No active editor to save"
  else
    try_catch
      (call document_save ;;
       name <- gets fileName ;;
       sendResponse id (JStr (cat "Saved file: " name)))
      (fun err => sendError id (cat "Failed to save file: " err)).

Definition closeFile (id : JSON) (params : Params) : M E unit :=
  if opt_truthy (p_path params) then
    let path := str_or (p_path params) EmptyString in
    editorsToClose <- gets (visibleEditors path) ;;
    if Nat.eqb editorsToClose 0 then sendError id (cat "File not open: " path)
    else
      try_catch
        (call (tabGroups_close path) ;;
         sendResponse id (JStr (cat "Closed file: " path)))
        (fun err => sendError id (cat "Failed to close file: " err))
  else
    editor <- gets activeTextEditor ;;
    if negb editor then sendError id "No active editor to close"
    else
      filePath <- gets fileName ;;
      try_catch
        (runVSCodeCommand "workbench.action.closeActiveEditor" [] ;;
         sendResponse id (JStr (cat "Closed active file: " filePath)))
        (fun err => sendError id (cat "Failed to close file: " err)).

Definition getFileContent (id : JSON) (params : Params) : M E unit :=
  if opt_truthy (p_path params) then
    let path := str_or (p_path params) EmptyString in
    try_catch
      (fileContent <- (fun w => lift_outcome (fs_readFile path (host w)) w) ;;
       let textContent := Buffer_toString fileContent in
       sendResponse id (JObj [("path", JStr path); ("content", JStr textContent)]))
      (fun _ =>
       sendError id (cat "Could not read file (not found or inaccessible): " path))
  else
    editor <- gets activeTextEditor ;;
    if negb editor then sendError id "No active editor to get content from"
    else
      content <- gets getText ;;
      filePath <- gets fileName ;;
      sendResponse id (JObj [("path", JStr filePath); ("content", JStr content)]).

Definition runCommand (id : JSON) (params : Params) : M E unit :=
  if negb (opt_truthy (p_command params)) then
    sendError id (cat "Missing " (cat (quoted "command") " parameter"))
  else
    let command := str_or (p_command params) EmptyString in
    let args := match p_args params with Some a => a | None => [] end in
    try_catch
      (result <- runVSCodeCommand command args ;;
       sendResponse id
         (JObj [("command", JStr command);
                ("result", match result with Some r => r | None => JNull end);
                ("success", JBool true)]))
      (fun err => sendError id (cat "Command execution failed: " err)).

(** *** The typing engine: the [type] action *)

(** [new vscode.Position(l, c)]: the constructor refuses negative numbers. *)
Definition newPosition (l c : Z) : M E Position :=
  if Z.ltb l 0 then throw "Illegal argument: line must be non-negative"
  else if Z.ltb c 0 then throw "Illegal argument: character must be non-negative"
  else ret {| line := l; character := c |}.

(** [editor.document.lineCount] *)
Definition lineCount : M E Z :=
  gets (fun e => Z.of_nat (List.length (doc_lines e))).

(** [editor.document.lineAt(n).text]: throws outside the document. *)
Definition lineAt (n : Z) : M E string :=
  fun w =>
    match (if Z.ltb n 0 then None else nth_error (doc_lines (host w)) (Z.to_nat n)) with
    | Some t => (Ok t, w)
    | None => (Throw "Illegal value for `line`", w)
    end.

Definition text_length (t : string) : Z := Z.of_nat (String.length t).

(** [editor.selection = s] *)
Definition setSelection (s : Selection) : M E unit :=
  emit (EvSelect s) ;;
  call (fun e => (Ok tt, set_selection s e)).

(** [if (params.position)]: clamp the position and put the cursor there. *)
Definition positionCursor (rp : RawPosition) : M E unit :=
  position <- newPosition (int_or_0 (raw_line rp)) (int_or_0 (raw_character rp)) ;;
  n <- lineCount ;;
  let docLine := Z.min (line position) (n - 1) in
  t <- lineAt docLine ;;
  let lineLength := text_length t in
  let docChar := Z.min (character position) lineLength in
  validPosition <- newPosition docLine docChar ;;
  setSelection {| anchor := validPosition; active := validPosition |}.

(** [if (params.selection)]: clamp both ends and select the range. *)
Definition selectRange (rs : RawSelection) : M E unit :=
  start <- newPosition (int_or_0 (raw_line (raw_start rs)))
                       (int_or_0 (raw_character (raw_start rs))) ;;
  end_ <- newPosition (int_or_0 (raw_line (raw_end rs)))
                      (int_or_0 (raw_character (raw_end rs))) ;;
  n <- lineCount ;;
  let startLine := Z.min (line start) (n - 1) in
  ts <- lineAt startLine ;;
  let startLineLength := text_length ts in
  let startChar := Z.min (character start) startLineLength in
  n' <- lineCount ;;
  let endLine := Z.min (line end_) (n' - 1) in
  te <- lineAt endLine ;;
  let endLineLength := text_length te in
  let endChar := Z.min (character end_) endLineLength in
  validStart <- newPosition startLine startChar ;;
  validEnd <- newPosition endLine endChar ;;
  setSelection {| anchor := validStart; active := validEnd |}.

(** Position and selection given with the request (before typing). *)
Definition prePosition (params : Params) : M E unit :=
  match p_position params with
  | Some rp => positionCursor rp
  | None => ret tt
  end ;;
  match p_selection params with
  | Some rs => selectRange rs
  | None => ret tt
  end.

(** [params.mode || 'insert'] *)
Definition typingMode (params : Params) : string := str_or (p_mode params) "insert".

(** Replace mode deletes a non-empty selection first. *)
Definition replacePreClear (mode : string) : M E unit :=
  sel <- gets selection ;;
  if String.eqb mode "replace" && negb (isEmpty sel) then
    emit (EvDelete sel) ;;
    call (edit_delete sel)
  else ret tt.

(** The delay per character: [speed] after the [duration] override. *)
Definition typingSpeed (params : Params) (text : string) : Q :=
  let speed := match p_speed params with Some s => s | None => defaultSpeed end in
  match p_duration params with
  | Some totalMs => (totalMs / inject_Z (Z.max (text_length text) 1))%Q
  | None => speed
  end.

(** [params.variation || 0] *)
Definition typingVariation (params : Params) : Q := num_or_0 (p_variation params).

(** Append mode: the cursor goes to the end of the last line. *)
Definition moveToEnd : M E unit :=
  n <- lineCount ;;
  let lastLine := n - 1 in
  t <- lineAt lastLine ;;
  let lastChar := text_length t in
  endPos <- newPosition lastLine lastChar ;;
  setSelection {| anchor := endPos; active := endPos |}.

Definition random : M E Q :=
  fun w => (Ok (Math_random (draws w)),
            {| host := host w; trace := trace w; draws := S (draws w) |}).

(** The wait before one character. *)
Definition charDelay (speed variation : Q) : M E Q :=
  if num_truthy variation then
    r <- random ;;
    ret (speed * (1 + (r * 2 - 1) * variation))%Q
  else ret speed.

Definition typeArgs (ch : ascii) : list JSON :=
  [JObj [("text", JStr (String ch EmptyString))]].

(** The loop [for (const ch of params.text)]. *)
Fixpoint typeChars (speed variation : Q) (text : string) : M E unit :=
  match text with
  | EmptyString => ret tt
  | String ch rest =>
      effectiveDelay <- charDelay speed variation ;;
      emit (EvSleep effectiveDelay) ;;
      runVSCodeCommand "default:type" (typeArgs ch) ;;
      typeChars speed variation rest
  end.

(** The cursor asked for after typing. *)
Definition placeAfterCursor (params : Params) : M E unit :=
  match p_afterCursor params with
  | Some rp =>
      afterPos <- newPosition (int_or_0 (raw_line rp)) (int_or_0 (raw_character rp)) ;;
      setSelection {| anchor := afterPos; active := afterPos |}
  | None => ret tt
  end.

Definition is_true (b : option bool) : bool :=
  match b with Some true => true | _ => false end.

(** The body of the [try] block of the [type] action. *)
Definition typeTry (id : JSON) (params : Params) (text : string) : M E unit :=
  prePosition params ;;
  let mode := typingMode params in
  replacePreClear mode ;;
  let speed := typingSpeed params text in
  let variation := typingVariation params in
  if is_true (p_quick params) then
    (if String.eqb mode "append" then moveToEnd else ret tt) ;;
    sel <- gets selection ;;
    emit (EvInsert (active sel) text) ;;
    call (edit_insert (active sel) text) ;;
    sendResponse id
      (JStr (cat "Inserted " (cat (decimal (String.length text)) " characters (quick mode)")))
  else
    (if String.eqb mode "append" then moveToEnd else ret tt) ;;
    typeChars speed variation text ;;
    placeAfterCursor params ;;
    sendResponse id (JStr (cat "Typed " (cat (decimal (String.length text)) " characters"))).

Definition typeHandler (id : JSON) (params : Params) : M E unit :=
  if negb (opt_truthy (p_text params)) then
    sendError id (cat "Missing " (cat (quoted "text") " to type"))
  else
    let text := str_or (p_text params) EmptyString in
    editor <- gets activeTextEditor ;;
    if negb editor then sendError id "No active editor to type into"
    else
      try_catch (typeTry id params text)
                (fun err => sendError id (cat "Typing failed: " err)).

(** *** The router *)

(** [msg.action || msg.method] *)
Definition actionOf (msg : Message) : option string :=
  if opt_truthy (m_action msg) then m_action msg else m_method msg.

Definition route (msg : Message) : M E unit :=
  let id := or_null (m_id msg) in
  let action := actionOf msg in
  let params := match m_params msg with Some p => p | None => no_params end in
  if negb (opt_truthy action) then
    sendError id
      (cat "Missing required " (cat (quoted "action")
        (cat " or " (cat (quoted "method") " field"))))
  else
    let action := str_or action EmptyString in
    if String.eqb action "openFile" then openFile id params
    else if String.eqb action "createFile" then createFile id params
    else if String.eqb action "saveFile" then saveFile id
    else if String.eqb action "closeFile" then closeFile id params
    else if String.eqb action "getFileContent" then getFileContent id params
    else if String.eqb action "runCommand" then runCommand id params
    else if String.eqb action "type" then typeHandler id params
    else sendError id (cat "Unknown action: " action).

(** The [message] listener.  [data] is what [JSON.parse] makes of the
    frame: [None] when it throws a [SyntaxError].  Any other exception that
    reaches the outer [catch] is logged and nothing is sent. *)
Definition onMessage (data : option Message) : M E unit :=
  match data with
  | None => emit (EvSend (BareError "Invalid JSON message"))
  | Some msg => try_catch (route msg) (fun _ => ret tt)
  end.

End Server.

(** ** A reference host: one text buffer and a flat file system

    A small executable editor on which the handlers can be run: a file
    table, at most one open document held as its lines, its selection, and
    the number of keystrokes the document still accepts before it is closed
    under the typing job ([None]: it stays open). *)

Module Buffer.

Record State : Type := {
  files : list (string * list byte);
  is_open : bool;
  name : string;
  lines : list string;
  sel : Selection;
  keystrokes : option nat
}.

Definition nl : ascii := "010"%char.

Fixpoint join_lines (ls : list string) : string :=
  match ls with
  | [] => EmptyString
  | [t] => t
  | t :: rest => cat t (String nl (join_lines rest))
  end.

Fixpoint split_lines (s : string) : list string :=
  match s with
  | EmptyString => [EmptyString]
  | String c s' =>
      if Ascii.eqb c nl then EmptyString :: split_lines s'
      else match split_lines s' with
           | t :: ts => String c t :: ts
           | [] => [String c EmptyString]
           end
  end.

Fixpoint offsetAt (ls : list string) (l c : nat) : nat :=
  match ls with
  | [] => O
  | t :: rest =>
      match l with
      | O => Nat.min c (String.length t)
      | S l' => (String.length t + 1 + offsetAt rest l' c)%nat
      end
  end.

Fixpoint positionAt (s : string) (off : nat) (l c : Z) : Position :=
  match off, s with
  | S off', String ch s' =>
      if Ascii.eqb ch nl then positionAt s' off' (l + 1) 0
      else positionAt s' off' l (c + 1)
  | _, _ => {| line := l; character := c |}
  end.

Definition offsetOf (ls : list string) (p : Position) : nat :=
  Nat.min (offsetAt ls (Z.to_nat (line p)) (Z.to_nat (character p)))
          (String.length (join_lines ls)).

(** Replace the text between two offsets and leave the cursor after it. *)
Definition splice (from to : nat) (t : string) (st : State) : State :=
  let whole := join_lines (lines st) in
  let lo := Nat.min from to in
  let hi := Nat.max from to in
  let whole' := cat (substring 0 lo whole) (cat t (string_drop hi whole)) in
  let p := positionAt whole' (lo + String.length t) 0 0 in
  {| files := files st; is_open := is_open st; name := name st;
     lines := split_lines whole'; sel := cursor p; keystrokes := keystrokes st |}.

Fixpoint lookup (path : string) (fs : list (string * list byte)) : option (list byte) :=
  match fs with
  | [] => None
  | (k, v) :: rest => if String.eqb k path then Some v else lookup path rest
  end.

Definition closed (st : State) : State :=
  {| files := files st; is_open := false; name := name st; lines := lines st;
     sel := sel st; keystrokes := keystrokes st |}.

Definition spend (st : State) : State :=
  {| files := files st; is_open := is_open st; name := name st; lines := lines st;
     sel := sel st; keystrokes := option_map Nat.pred (keystrokes st) |}.

Definition type_text (t : string) (st : State) : outcome (option JSON) * State :=
  if negb (is_open st) then (Throw "no active editor", st)
  else match keystrokes st with
       | Some O => (Throw "document was closed", closed st)
       | _ =>
           let a := offsetOf (lines st) (anchor (sel st)) in
           let b := offsetOf (lines st) (active (sel st)) in
           (Ok None, spend (splice a b t st))
       end.

Definition execute (cmd : string) (args : list JSON) (st : State)
    : outcome (option JSON) * State :=
  if String.eqb cmd "default:type" then
    match args with
    | [JObj [(_, JStr t)]] => type_text t st
    | _ => (Throw "bad arguments", st)
    end
  else if String.eqb cmd "workbench.action.closeActiveEditor" then (Ok None, closed st)
  else (Throw (cat "command '" (cat cmd "' not found")), st).

Definition open_path (path : string) (st : State) : outcome unit * State :=
  match lookup path (files st) with
  | Some bytes =>
      (Ok tt, {| files := files st; is_open := true; name := path;
                 lines := split_lines (string_of_list_byte bytes);
                 sel := cursor {| line := 0; character := 0 |};
                 keystrokes := keystrokes st |})
  | None => (Throw "file not found", st)
  end.

Definition write_path (path : string) (bytes : list byte) (st : State)
    : outcome unit * State :=
  (Ok tt, {| files := (path, bytes) :: files st; is_open := is_open st; name := name st;
             lines := lines st; sel := sel st; keystrokes := keystrokes st |}).

Definition read_path (path : string) (st : State) : outcome (list byte) :=
  match lookup path (files st) with
  | Some bytes => Ok bytes
  | None => Throw "file not found"
  end.

Definition select (s : Selection) (st : State) : State :=
  {| files := files st; is_open := is_open st; name := name st; lines := lines st;
     sel := s; keystrokes := keystrokes st |}.

Definition delete_range (s : Selection) (st : State) : outcome unit * State :=
  (Ok tt, splice (offsetOf (lines st) (anchor s)) (offsetOf (lines st) (active s))
                 EmptyString st).

Definition insert_at (p : Position) (t : string) (st : State) : outcome unit * State :=
  (Ok tt, splice (offsetOf (lines st) p) (offsetOf (lines st) p) t st).

Definition save (st : State) : outcome unit * State :=
  write_path (name st) (list_byte_of_string (join_lines (lines st))) st.

(** The reference host with a configured default speed and a source of
    random numbers. *)
Definition reference (speed : Q) (rnd : nat -> Q) : Host State := {|
  defaultSpeed := speed;
  Math_random := rnd;
  Buffer_from := list_byte_of_string;
  Buffer_toString := string_of_list_byte;
  fs_stat := fun path st => match lookup path (files st) with Some _ => true | None => false end;
  fs_readFile := read_path;
  fs_writeFile := write_path;
  openAndShow := open_path;
  visibleEditors := fun path st => if is_open st && String.eqb (name st) path then 1%nat else 0%nat;
  tabGroups_close := fun _ st => (Ok tt, closed st);
  executeCommand := execute;
  activeTextEditor := is_open;
  fileName := name;
  getText := fun st => join_lines (lines st);
  doc_lines := lines;
  document_save := save;
  selection := sel;
  set_selection := select;
  edit_delete := delete_range;
  edit_insert := insert_at
|}.

(** A document with the given lines, the cursor at its start. *)
Definition editing (ls : list string) (budget : option nat) : State :=
  {| files := []; is_open := true; name := "/tmp/a.txt"; lines := ls;
     sel := cursor {| line := 0; character := 0 |}; keystrokes := budget |}.

Definition start (st : State) : World State :=
  {| host := st; trace := []; draws := O |}.

End Buffer.

(** Requests used in the examples. *)
Definition pos (l c : Z) : RawPosition := {| raw_line := Some l; raw_character := Some c |}.

Definition typeParams (text : string) : Params :=
  {| p_path := None; p_content := None; p_command := None; p_args := None;
     p_text := Some text; p_speed := None; p_variation := None; p_duration := None;
     p_quick := None; p_mode := None; p_position := None; p_selection := None;
     p_afterCursor := None |}.

Definition request (id : option JSON) (action : string) (params : Params) : Message :=
  {| m_id := id; m_action := Some action; m_method := None; m_params := Some params |}.

(** ** Vocabulary of the statements *)

(** The messages written on the socket, in order. *)
Fixpoint sent (tr : list Event) : list Outbound :=
  match tr with
  | [] => []
  | EvSend m :: rest => m :: sent rest
  | _ :: rest => sent rest
  end.

(** The characters handed to [default:type], in order. *)
Fixpoint typed (tr : list Event) : string :=
  match tr with
  | [] => EmptyString
  | EvCommand _ [JObj [(_, JStr t)]] :: rest => cat t (typed rest)
  | _ :: rest => typed rest
  end.

(** An id that is present but falsy: [0], the empty string or [false]. *)
Inductive falsy_scalar : JSON -> Prop :=
| falsy_zero : falsy_scalar (JNum 0)
| falsy_empty : falsy_scalar (JStr EmptyString)
| falsy_false : falsy_scalar (JBool false).

(** Clamping as the specification words it: a line at or past the line
    count becomes the last line, a character past the end of that line
    becomes the length of the line. *)
Definition clamp (ls : list string) (rp : RawPosition) : Position :=
  let l := int_or_0 (raw_line rp) in
  let c := int_or_0 (raw_character rp) in
  let n := Z.of_nat (List.length ls) in
  let l' := if Z.leb n l then n - 1 else l in
  let len := text_length (nth (Z.to_nat l') ls EmptyString) in
  {| line := l'; character := if Z.ltb len c then len else c |}.

Definition in_document (rp : RawPosition) : Prop :=
  0 <= int_or_0 (raw_line rp) /\ 0 <= int_or_0 (raw_character rp).

(** The delay per character as the specification words it. *)
Definition specifiedDelay (configured : Q) (params : Params) (text : string) : Q :=
  match p_duration params with
  | Some duration => (duration / inject_Z (Z.max 1 (Z.of_nat (String.length text))))%Q
  | None => match p_speed params with Some s => s | None => configured end
  end.

(** The jitter fraction as the specification words it: clamped into [0, 1]. *)
Definition clampedJitter (variation : Q) : Q :=
  if Qle_bool variation 0 then 0%Q
  else if Qle_bool 1 variation then 1%Q else variation.

(** Events of positioning and of pre-clearing. *)
Definition positioning (ev : Event) : Prop :=
  match ev with EvSelect _ | EvDelete _ => True | _ => False end.

(** Events of an animation: a wait or a keystroke. *)
Definition animating (ev : Event) : Prop :=
  match ev with EvSleep _ | EvCommand _ _ => True | _ => False end.

Section Stages.
Context {E : Type} `{Host E}.
Local Open Scope handler_scope.

(** What a typing job does before it inserts: steps 1 to 3. *)
Definition typePrologue (params : Params) : M E unit :=
  prePosition params ;;
  replacePreClear (typingMode params) ;;
  (if String.eqb (typingMode params) "append" then moveToEnd else ret tt).

(** What it does from there: steps 5 to 8. *)
Definition typeInsertion (id : JSON) (params : Params) (text : string) : M E unit :=
  if is_true (p_quick params) then
    sel <- gets selection ;;
    emit (EvInsert (active sel) text) ;;
    call (edit_insert (active sel) text) ;;
    sendResponse id
      (JStr (cat "Inserted " (cat (decimal (String.length text)) " characters (quick mode)")))
  else
    typeChars (typingSpeed params text) (typingVariation params) text ;;
    placeAfterCursor params ;;
    sendResponse id (JStr (cat "Typed " (cat (decimal (String.length text)) " characters"))).

(** Every event a computation adds to the trace satisfies [P]. *)
Definition emits {A} (P : Event -> Prop) (m : M E A) : Prop :=
  forall w, exists evs, trace (snd (m w)) = (trace w ++ evs)%list /\ Forall P evs.

(** The waits a job with this base delay and variation can make. *)
Definition pacing (speed variation : Q) (ms : Q) : Prop :=
  if num_truthy variation then
    exists n, ms = (speed * (1 + (Math_random n * 2 - 1) * variation))%Q
  else ms = speed.

End Stages.

(** What the handling of a request with this (normalized) id may add to the
    trace: results and errors carry the id, a result needs a non-null id,
    the bare error is never sent, and waits are of the job's pacing. *)
Definition allowed (id : JSON) (wait : Q -> Prop) (ev : Event) : Prop :=
  match ev with
  | EvSend (Result i _) => i = id /\ id <> JNull
  | EvSend (Error i _) => i = id
  | EvSend (BareError _) => False
  | EvSleep ms => wait ms
  | _ => True
  end.

Definition paramsOf (msg : Message) : Params :=
  match m_params msg with Some p => p | None => no_params end.

Definition textOf (params : Params) : string := str_or (p_text params) EmptyString.

(** Requests used in the examples. *)

Definition scenario_replace : Params :=
  {| p_path := None; p_content := None; p_command := None; p_args := None;
     p_text := Some "ab"; p_speed := None; p_variation := None; p_duration := None;
     p_quick := Some true; p_mode := Some "replace"; p_position := None;
     p_selection := Some {| raw_start := pos 0 0; raw_end := pos 0 2 |};
     p_afterCursor := None |}.

Definition scenario_jitter (variation : Q) : Params :=
  {| p_path := None; p_content := None; p_command := None; p_args := None;
     p_text := Some "hi"; p_speed := Some 50%Q; p_variation := Some variation;
     p_duration := None; p_quick := None; p_mode := None; p_position := None;
     p_selection := None; p_afterCursor := None |}.

Definition scenario_duration : Params :=
  {| p_path := None; p_content := None; p_command := None; p_args := None;
     p_text := Some "hi"; p_speed := Some 50%Q; p_variation := None;
     p_duration := Some 300%Q; p_quick := None; p_mode := None; p_position := None;
     p_selection := None; p_afterCursor := None |}.

Definition scenario_after : Params :=
  {| p_path := None; p_content := None; p_command := None; p_args := None;
     p_text := Some "a"; p_speed := None; p_variation := None; p_duration := None;
     p_quick := None; p_mode := None; p_position := None; p_selection := None;
     p_afterCursor := Some (pos 99 99) |}.

Definition scenario_positions : Params :=
  {| p_path := None; p_content := None; p_command := None; p_args := None;
     p_text := Some "a"; p_speed := None; p_variation := None; p_duration := None;
     p_quick := None; p_mode := None; p_position := Some (pos 7 1);
     p_selection := Some {| raw_start := pos 0 9; raw_end := pos 1 0 |};
     p_afterCursor := None |}.

Definition scenario_read : Params :=
  {| p_path := Some "/tmp/a.txt"; p_content := None; p_command := None; p_args := None;
     p_text := None; p_speed := None; p_variation := None; p_duration := None;
     p_quick := None; p_mode := None; p_position := None; p_selection := None;
     p_afterCursor := None |}.


(** Hosts and runs used in the examples. *)

Definition quietHost : Host Buffer.State := Buffer.reference 50 (fun _ => 0%Q).

Definition evenHost : Host Buffer.State := Buffer.reference 50 (fun _ => (1 # 2)%Q).

Definition two_lines : World Buffer.State :=
  Buffer.start (Buffer.editing ["xy"; "z"] None).

Definition one_line : World Buffer.State :=
  Buffer.start (Buffer.editing ["xy"] None).

(** Typing "abcd" into an empty document that is closed after [k] keystrokes. *)
Definition closing_after (k : nat) : World Buffer.State :=
  Buffer.start (Buffer.editing [EmptyString] (Some k)).

Definition failing_run (k : nat) : World Buffer.State :=
  snd (onMessage (H := quietHost)
         (Some (request (Some (JNum 1)) "type" (typeParams "abcd")))
         (closing_after k)).

(** The document ["xy"] open next to a file holding "hi". *)
Definition with_file : World Buffer.State :=
  Buffer.start
    {| Buffer.files := [("/tmp/a.txt", list_byte_of_string "hi")];
       Buffer.is_open := true; Buffer.name := "/tmp/b.txt"; Buffer.lines := ["xy"];
       Buffer.sel := cursor {| line := 0; character := 1 |};
       Buffer.keystrokes := None |}.

Definition jitter_run : World Buffer.State :=
  snd (onMessage (H := quietHost)
         (Some (request (Some (JNum 1)) "type" (scenario_jitter 2)))
         one_line).

Definition after_run : World Buffer.State :=
  snd (onMessage (H := quietHost)
         (Some (request (Some (JNum 1)) "type" scenario_after))
         one_line).

(** ** Replies *)

(** The replies one request with this (normalized) id may get: none when
    the id is null, else one result or one error carrying the id; an error
    may also answer a null id. *)
Definition answered (id : JSON) (l : list Outbound) : Prop :=
  match l with
  | [] => id = JNull
  | [Result i _] => i = id /\ id <> JNull
  | [Error i _] => i = id
  | _ => False
  end.

(** An event that writes nothing on the socket. *)
Definition silent (ev : Event) : Prop :=
  match ev with EvSend _ => False | _ => True end.

(** A computation that writes nothing on the socket. *)
Definition quiet {E A} (m : M E A) : Prop :=
  forall w, sent (trace (snd (m w))) = sent (trace w).

(** A quiet computation that does not throw. *)
Definition steady {E A} (m : M E A) : Prop :=
  forall w, sent (trace (snd (m w))) = sent (trace w) /\ exists a, fst (m w) = Ok a.

(** A computation that replies when it returns and is quiet when it throws. *)
Definition replies {E A} (id : JSON) (m : M E A) : Prop :=
  forall w, exists l,
    sent (trace (snd (m w))) = (sent (trace w) ++ l)%list /\
    match fst (m w) with
    | Ok _ => answered id l
    | Throw _ => l = []
    end.

(** A computation that returns and replies. *)
Definition answers {E A} (id : JSON) (m : M E A) : Prop :=
  forall w, exists l,
    sent (trace (snd (m w))) = (sent (trace w) ++ l)%list /\
    answered id l /\ exists a, fst (m w) = Ok a.

(** The actions the router knows. *)
Definition known_actions : list string :=
  ["openFile"; "createFile"; "saveFile"; "closeFile"; "getFileContent";
   "runCommand"; "type"].

(** The edits a request may make through the edit builder: a deletion
    only for a [type] request in replace mode, an insertion only for a
    quick [type] request, and then of the whole text. *)
Definition edits_allowed (msg : Message) (ev : Event) : Prop :=
  match ev with
  | EvDelete _ =>
      actionOf msg = Some "type" /\ typingMode (paramsOf msg) = "replace"
  | EvInsert _ t =>
      actionOf msg = Some "type" /\ p_quick (paramsOf msg) = Some true /\
      t = textOf (paramsOf msg)
  | _ => True
  end.

Definition createRequest (id : JSON) (path content : string) : Message :=
  {| m_id := Some id; m_action := Some "createFile"; m_method := None;
     m_params := Some
       {| p_path := Some path; p_content := Some content; p_command := None;
          p_args := None; p_text := None; p_speed := None; p_variation := None;
          p_duration := None; p_quick := None; p_mode := None; p_position := None;
          p_selection := None; p_afterCursor := None |} |}.

Definition readRequest (id : JSON) (path : string) : Message :=
  {| m_id := Some id; m_action := Some "getFileContent"; m_method := None;
     m_params := Some
       {| p_path := Some path; p_content := None; p_command := None;
          p_args := None; p_text := None; p_speed := None; p_variation := None;
          p_duration := None; p_quick := None; p_mode := None; p_position := None;
          p_selection := None; p_afterCursor := None |} |}.

(** The waits of a trace, in order. *)
Fixpoint waits (tr : list Event) : list Q :=
  match tr with
  | [] => []
  | EvSleep ms :: rest => ms :: waits rest
  | _ :: rest => waits rest
  end.

(** A property of events that selections, waits, commands and sends have. *)
Definition harmless (P : Event -> Prop) : Prop :=
  (forall s, P (EvSelect s)) /\ (forall ms, P (EvSleep ms)) /\
  (forall name args, P (EvCommand name args)) /\ (forall m, P (EvSend m)).



(** ** Start-up: the authentication token *)

Definition hexDigit (n : N) : ascii :=
  match n with
  | 0%N => "0" | 1%N => "1" | 2%N => "2" | 3%N => "3" | 4%N => "4"
  | 5%N => "5" | 6%N => "6" | 7%N => "7" | 8%N => "8" | 9%N => "9"
  | 10%N => "a" | 11%N => "b" | 12%N => "c" | 13%N => "d" | 14%N => "e"
  | _ => "f"
  end%char.

(** [buf.toString('hex')]: two lowercase digits per byte. *)
Fixpoint toString_hex (bytes : list byte) : string :=
  match bytes with
  | [] => EmptyString
  | b :: rest =>
      String (hexDigit (N.div (Byte.to_N b) 16))
        (String (hexDigit (N.modulo (Byte.to_N b) 16)) (toString_hex rest))
  end.

(** [crypto.randomBytes] is a parameter: [randomBytes n] are the bytes got
    for the length [n]. *)
Definition generateSecureToken (randomBytes : nat -> list byte) (length : nat) : string :=
  toString_hex (randomBytes length).

(** The settings [activate] reads ([?? default] applied). *)
Record AuthSettings : Type := {
  auth_enabled : bool;
  auth_token : string;
  auth_generateRandomToken : bool
}.

(** What the operator is shown while the token is set up. *)
Inductive Notice : Type :=
| TokenGenerated       (* information message with the "Copy Token" action *)
| TokenMissing.        (* warning: the server will reject all connections *)

(** "Process authentication settings": the value of [authToken] and the
    messages shown. *)
Definition processAuthSettings (randomBytes : nat -> list byte) (cfg : AuthSettings)
    : option string * list Notice :=
  if auth_enabled cfg then
    if str_truthy (auth_token cfg) then (Some (auth_token cfg), [])
    else if auth_generateRandomToken cfg then
      (Some (generateSecureToken randomBytes 32), [TokenGenerated])
    else (None, [TokenMissing])
  else (None, []).

Definition isHexDigit (c : ascii) : bool :=
  let n := nat_of_ascii c in
  ((48 <=? n) && (n <=? 57) || (97 <=? n) && (n <=? 102))%nat.

Fixpoint string_forallb (f : ascii -> bool) (s : string) : bool :=
  match s with
  | EmptyString => true
  | String c rest => f c && string_forallb f rest
  end.

(** ** The server's life cycle: [wss], [clientCount] and the status bar *)

Record ServerState : Type := {
  wss : bool;                 (* is [wss] defined *)
  clientCount : Z;
  statusBar : string          (* statusBar.text *)
}.

Definition text_off : string := "$(debug-disconnect) MCP: Off".

Definition text_on : string := "$(debug-connect) MCP: On".

(** [`$(debug-connect) MCP: On (${clientCount})`] *)
Definition text_on_count (n : Z) : string :=
  cat "$(debug-connect) MCP: On (" (cat (NilZero.string_of_int (Z.to_int n)) ")").

(** The state when [activate] has created the status bar item. *)
Definition activated : ServerState :=
  {| wss := false; clientCount := 0; statusBar := text_off |}.

Definition set_text (t : string) (s : ServerState) : ServerState :=
  {| wss := wss s; clientCount := clientCount s; statusBar := t |}.

(** [startServer]; [listen] is the outcome of the constructor call
    [new WebSocket.Server(...)]: the object, or the exception it throws.
    Whether the port gets bound is reported later, by events the code
    does not listen to, and is no part of this state. *)
Definition startServer (listen : outcome unit) (s : ServerState)
    : outcome unit * ServerState :=
  match listen with
  | Ok _ => (Ok tt, {| wss := true; clientCount := 0; statusBar := statusBar s |})
  | Throw err => (Throw err, s)
  end.

Definition stopServer (s : ServerState) : ServerState :=
  if wss s then {| wss := false; clientCount := 0; statusBar := statusBar s |}
  else s.

(** The command [mcpServer.toggle]. *)
Definition toggle (listen : outcome unit) (s : ServerState) : ServerState :=
  if wss s then set_text text_off (stopServer s)
  else
    match startServer listen s with
    | (Ok _, s1) =>
        set_text (if Z.ltb 0 (clientCount s1) then text_on_count (clientCount s1)
                  else text_on) s1
    | (Throw _, s1) => set_text text_off (stopServer s1)
    end.

(** The [connection] listener of the server. *)
Definition onConnection (s : ServerState) : ServerState :=
  let n := clientCount s + 1 in
  {| wss := wss s; clientCount := n; statusBar := text_on_count n |}.

(** The [close] listener of a socket. *)
Definition onSocketClose (s : ServerState) : ServerState :=
  let n := clientCount s - 1 in
  {| wss := wss s; clientCount := n;
     statusBar := if Z.ltb 0 n then text_on_count n else text_on |}.

Inductive SocketEvent : Type := Connection | SocketClose.

Definition socketStep (s : ServerState) (ev : SocketEvent) : ServerState :=
  match ev with
  | Connection => onConnection s
  | SocketClose => onSocketClose s
  end.

(** Connections opened minus connections closed. *)
Fixpoint balance (evs : list SocketEvent) : Z :=
  match evs with
  | [] => 0
  | Connection :: rest => 1 + balance rest
  | SocketClose :: rest => balance rest - 1
  end.

(** What the status bar shows for a count while the server is on. *)
Definition shown (n : Z) : string :=
  if Z.ltb 0 n then text_on_count n else text_on.

(** ** The example client *)

(** [args.find(arg => arg.startsWith('--token='))] then [split('=')[1]]. *)
Fixpoint split_on (sep : ascii) (s : string) : list string :=
  match s with
  | EmptyString => [EmptyString]
  | String c s' =>
      if Ascii.eqb c sep then EmptyString :: split_on sep s'
      else match split_on sep s' with
           | t :: ts => String c t :: ts
           | [] => [String c EmptyString]
           end
  end.

Definition parseTokenArg (args : list string) : option string :=
  match find (String.prefix "--token=") args with
  | Some tokenArg =>
      if str_truthy tokenArg then nth_error (split_on "="%char tokenArg) 1 else None
  | None => None
  end.

Fixpoint has_char (c : ascii) (s : string) : bool :=
  match s with
  | EmptyString => false
  | String x rest => Ascii.eqb x c || has_char c rest
  end.

Record Command : Type := { c_id : Z; c_action : string; c_params : Params }.

(** How the promise of a command was settled. *)
Inductive Settlement : Type :=
| PromiseResolved (id : Z) (result : option JSON)
| PromiseRejected (id : Z) (error : string).

Definition settled_id (s : Settlement) : Z :=
  match s with PromiseResolved id _ | PromiseRejected id _ => id end.

(** The [Map] of pending requests: keys are the numbers [nextId] gave. *)
Definition PendingMap : Type := list (Z * string).

Fixpoint Map_set (k : Z) (v : string) (m : PendingMap) : PendingMap :=
  match m with
  | [] => [(k, v)]
  | (k', v') :: rest =>
      if Z.eqb k k' then (k, v) :: rest else (k', v') :: Map_set k v rest
  end.

(** Is the JSON value the key [k] (same number). *)
Definition key_is (id : JSON) (k : Z) : bool :=
  match id with
  | JNum q => Qeq_bool q (inject_Z k)
  | _ => false
  end.

Definition Map_get (id : JSON) (m : PendingMap) : option (Z * string) :=
  find (fun e => key_is id (fst e)) m.

Definition Map_has (id : JSON) (m : PendingMap) : bool :=
  match Map_get id m with Some _ => true | None => false end.

Definition Map_delete (id : JSON) (m : PendingMap) : PendingMap :=
  filter (fun e => negb (key_is id (fst e))) m.

Record Client : Type := {
  nextId : Z;
  pendingRequests : PendingMap;
  outgoing : list Command;            (* what [ws.send] was given, in order *)
  settled : list Settlement
}.

Definition newClient : Client :=
  {| nextId := 1; pendingRequests := []; outgoing := []; settled := [] |}.

Definition sendCommand (action : string) (params : Params) (description : string)
    (c : Client) : Client :=
  let id := nextId c in
  {| nextId := id + 1;
     pendingRequests := Map_set id description (pendingRequests c);
     outgoing := (outgoing c ++ [{| c_id := id; c_action := action; c_params := params |}])%list;
     settled := settled c |}.

Definition response_id (r : Outbound) : option JSON :=
  match r with
  | Result i _ | Error i _ => Some i
  | BareError _ => None
  end.

(** The [message] listener of the client; [data] is the decoded frame,
    [None] when [JSON.parse] throws. *)
Definition clientOnMessage (data : option Outbound) (c : Client) : Client :=
  match data with
  | None => c
  | Some response =>
      match response_id response with
      | Some id =>
          if truthy id && Map_has id (pendingRequests c) then
            match Map_get id (pendingRequests c) with
            | Some (k, _) =>
                let pending := Map_delete id (pendingRequests c) in
                let settlement :=
                  match response with
                  | Error _ e => if str_truthy e then PromiseRejected k e else PromiseResolved k None
                  | BareError e => if str_truthy e then PromiseRejected k e else PromiseResolved k None
                  | Result _ r => PromiseResolved k (Some r)
                  end in
                {| nextId := nextId c; pendingRequests := pending;
                   outgoing := outgoing c;
                   settled := (settled c ++ [settlement])%list |}
            | None => c
            end
          else c
      | None => c
      end
  end.

(** The frame of a command as the server decodes it. *)
Definition encodeCommand (cmd : Command) : Message :=
  {| m_id := Some (JNum (inject_Z (c_id cmd))); m_action := Some (c_action cmd);
     m_method := None; m_params := Some (c_params cmd) |}.

Inductive ClientStep : Type :=
| Send (action : string) (params : Params) (description : string)
| Receive (data : option Outbound).

Definition clientStep (c : Client) (st : ClientStep) : Client :=
  match st with
  | Send action params description => sendCommand action params description c
  | Receive data => clientOnMessage data c
  end.

Definition sends (steps : list ClientStep) : nat :=
  List.length (filter (fun st => match st with Send _ _ _ => true | _ => false end) steps).

(** The client's bookkeeping is sound: ids start at 1, pending keys are
    distinct and below [nextId]. *)
Definition client_ok (c : Client) : Prop :=
  1 <= nextId c /\ NoDup (map fst (pendingRequests c)) /\
  forall k, In k (map fst (pendingRequests c)) -> 1 <= k < nextId c.



(** Requests, settings and runs used in the further examples. *)

Definition strangeRequest : Message := request (Some (JNum 1)) "explode" no_params.

Definition namelessRequest : Message :=
  {| m_id := Some (JNum 1); m_action := None; m_method := Some EmptyString;
     m_params := None |}.

Definition scenario_append : Params :=
  {| p_path := None; p_content := None; p_command := None; p_args := None;
     p_text := Some "!"; p_speed := None; p_variation := None; p_duration := None;
     p_quick := Some true; p_mode := Some "append"; p_position := Some (pos 0 0);
     p_selection := None; p_afterCursor := None |}.

Definition zeroBytes (n : nat) : list byte := repeat x00 n.

Definition misconfigured : AuthSettings :=
  {| auth_enabled := true; auth_token := EmptyString;
     auth_generateRandomToken := false |}.

Definition anyRequest : UpgradeRequest :=
  {| query_token := Some "guess"; authorization := Some "Bearer guess" |}.

(** Does [pat] occur in [s]. *)
Fixpoint occurs (pat s : string) : bool :=
  String.prefix pat s ||
  match s with
  | EmptyString => false
  | String _ s' => occurs pat s'
  end.

(** A position of the document: a line it has and a character on it or
    just past its end. *)
Definition inside (ls : list string) (p : Position) : Prop :=
  0 <= line p < Z.of_nat (List.length ls) /\
  0 <= character p <= text_length (nth (Z.to_nat (line p)) ls EmptyString).

Definition is_token_arg (arg : string) : bool := String.prefix "--token=" arg.

(** ** The exact trace of the typing loop *)

Section ExactPacing.
Context {E : Type} `{Host E}.

(** The wait computed for a character when [n] draws were made before it:
    [variation ? speed * (1 + (Math.random()*2 - 1) * variation) : speed]. *)
Definition jitteredWait (speed variation : Q) (n : nat) : Q :=
  if num_truthy variation then
    (speed * (1 + (Math_random n * 2 - 1) * variation))%Q
  else speed.

(** The waits of [k] characters in a row, the first after [d] draws. *)
Definition jitteredWaits (speed variation : Q) (d k : nat) : list Q :=
  map (fun i => jitteredWait speed variation (d + i)) (seq 0 k).

End ExactPacing.

(** A wait, then the keystroke: what the loop does for each character that
    has a wait in [ws]. *)
Fixpoint keystrokes (ws : list Q) (text : string) : list Event :=
  match ws, text with
  | ms :: ws', String ch rest =>
      EvSleep ms :: EvCommand "default:type" (typeArgs ch) :: keystrokes ws' rest
  | _, _ => []
  end.

(** The cursor selected after typing, as the request gives it. *)
Definition afterSelection (params : Params) : list Event :=
  match p_afterCursor params with
  | Some rp =>
      [EvSelect (cursor {| line := int_or_0 (raw_line rp);
                           character := int_or_0 (raw_character rp) |})]
  | None => []
  end.

(** A computation that makes no draw of [Math.random]. *)
Definition keeps_draws {E A} (m : M E A) : Prop :=
  forall w, draws (snd (m w)) = draws w.

(** A host whose draws are 1/4, 1/5, 1/6, ... *)
Definition drawHost : Host Buffer.State :=
  Buffer.reference 50 (fun n => (1 # Pos.of_succ_nat (S (S (S n))))%Q).

(** Typing "hi" with speed 50 and variation 1/5 into the document
    ["xy"; "z"], the draws being 1/4, 1/5, ... *)
Definition drawn_run : World Buffer.State :=
  snd (typeHandler (H := drawHost) (JNum 1) (scenario_jitter (1 # 5)) two_lines).

(** * Properties *)

Local Open Scope list_scope.

(** ** The handler monad and traces *)

Lemma sent_app (a b : list Event) : sent (a ++ b) = (sent a ++ sent b)%list.
Proof.
  induction a as [|ev a IH]; simpl; [reflexivity|].
  destruct ev; simpl; rewrite IH; reflexivity.
Qed.

Lemma cat_assoc (a b c : string) : cat (cat a b) c = cat a (cat b c).
Proof.
  unfold cat. induction a as [|x a IH]; simpl; [reflexivity|].
  rewrite IH. reflexivity.
Qed.

Lemma cat_empty_r (a : string) : cat a EmptyString = a.
Proof.
  unfold cat. induction a as [|x a IH]; simpl; [reflexivity|].
  rewrite IH. reflexivity.
Qed.

Lemma typed_app (a b : list Event) : typed (a ++ b) = cat (typed a) (typed b).
Proof.
  induction a as [|ev a IH]; simpl; [reflexivity|].
  destruct ev; simpl; try exact IH.
  destruct args as [|[| | | | |[|[k [| | |t| |]] [|? ?]]] [|? ?]]; simpl; try exact IH.
  rewrite IH, cat_assoc. reflexivity.
Qed.

Section Traces.
Context {E : Type} `{Host E}.
Variable P : Event -> Prop.

Lemma emits_ret {A} (a : A) : emits P (ret (E := E) a).
Proof. intros w. exists []. simpl. rewrite app_nil_r. auto. Qed.

Lemma emits_throw {A} (err : string) : emits P (throw (E := E) (A := A) err).
Proof. intros w. exists []. simpl. rewrite app_nil_r. auto. Qed.

Lemma emits_gets {A} (f : E -> A) : emits P (gets f).
Proof. intros w. exists []. simpl. rewrite app_nil_r. auto. Qed.

Lemma emits_call {A} (op : E -> outcome A * E) : emits P (call op).
Proof.
  intros w. exists []. unfold call. destruct (op (host w)). simpl.
  rewrite app_nil_r. auto.
Qed.

Lemma emits_emit (ev : Event) : P ev -> emits P (emit (E := E) ev).
Proof. intros Hev w. exists [ev]. simpl. auto. Qed.

Lemma emits_bind {A B} (m : M E A) (k : A -> M E B) :
  emits P m -> (forall a, emits P (k a)) -> emits P (bind m k).
Proof.
  intros Hm Hk w. unfold bind.
  destruct (Hm w) as [evs [Ht Hall]].
  destruct (m w) as [[a|err] w1]; simpl in *.
  - destruct (Hk a w1) as [evs2 [Ht2 Hall2]].
    exists (evs ++ evs2). rewrite Ht2, Ht, app_assoc. split; [reflexivity|].
    apply Forall_app; auto.
  - exists evs. auto.
Qed.

Lemma emits_try_catch {A} (m : M E A) (h : string -> M E A) :
  emits P m -> (forall err, emits P (h err)) -> emits P (try_catch m h).
Proof.
  intros Hm Hh w. unfold try_catch.
  destruct (Hm w) as [evs [Ht Hall]].
  destruct (m w) as [[a|err] w1]; simpl in *.
  - exists evs. auto.
  - destruct (Hh err w1) as [evs2 [Ht2 Hall2]].
    exists (evs ++ evs2). rewrite Ht2, Ht, app_assoc. split; [reflexivity|].
    apply Forall_app; auto.
Qed.

Lemma emits_lineAt (n : Z) : emits P (lineAt n).
Proof.
  intros w. exists []. unfold lineAt.
  destruct (if Z.ltb n 0 then None else nth_error (doc_lines (host w)) (Z.to_nat n));
    simpl; rewrite app_nil_r; auto.
Qed.

Lemma emits_newPosition (l c : Z) : emits P (newPosition (E := E) l c).
Proof.
  unfold newPosition. destruct (Z.ltb l 0); [apply emits_throw|].
  destruct (Z.ltb c 0); [apply emits_throw | apply emits_ret].
Qed.

Lemma emits_lineCount : emits P lineCount.
Proof. apply emits_gets. Qed.

Lemma emits_random : emits P random.
Proof. intros w. exists []. simpl. rewrite app_nil_r. auto. Qed.

Lemma emits_read {A} (f : E -> outcome A) :
  emits P (fun w => lift_outcome (f (host w)) w).
Proof. intros w. exists []. simpl. rewrite app_nil_r. auto. Qed.

End Traces.

Create HintDb emits.
#[global] Hint Resolve emits_ret emits_throw emits_gets emits_call emits_lineAt
  emits_newPosition emits_random emits_read emits_lineCount : emits.

(** Decompose a handler into its primitive steps; [side] proves the
    property of each event emitted. *)
Ltac emits_step side :=
  first
    [ solve [auto with emits]
    | apply emits_emit; side
    | apply emits_bind; [| intros ? ]
    | apply emits_try_catch; [| intros ? ]
    | match goal with
      | |- emits _ (if ?b then _ else _) => destruct b
      | |- emits _ (match ?x with _ => _ end) => destruct x
      end ].

Ltac emits_all side := repeat (emits_step side).

Section Handlers.
Context {E : Type} `{Host E}.

Lemma emits_weaken {A} (P Q : Event -> Prop) (m : M E A) :
  (forall ev, P ev -> Q ev) -> emits P m -> emits Q m.
Proof.
  intros HPQ Hm w. destruct (Hm w) as [evs [Ht Hall]].
  exists evs. split; [exact Ht|].
  eapply Forall_impl; [|exact Hall]. exact HPQ.
Qed.

Lemma emits_sendResponse id wait result :
  emits (allowed id wait) (sendResponse (E := E) id result).
Proof.
  destruct id; simpl;
    [apply emits_ret | apply emits_emit; simpl; split; [reflexivity | discriminate] ..].
Qed.

Lemma emits_sendError id wait err :
  emits (allowed id wait) (sendError (E := E) id err).
Proof. apply emits_emit. reflexivity. Qed.

Lemma emits_runVSCodeCommand id wait name args :
  emits (allowed id wait) (runVSCodeCommand name args).
Proof. unfold runVSCodeCommand. emits_all ltac:(exact I). Qed.

Lemma emits_setSelection id wait s :
  emits (allowed id wait) (setSelection s).
Proof. unfold setSelection. emits_all ltac:(exact I). Qed.

#[local] Hint Resolve emits_sendResponse emits_sendError emits_runVSCodeCommand
  emits_setSelection : emits.

Lemma emits_bind_result {A B} (P : Event -> Prop) (R : A -> Prop)
    (m : M E A) (k : A -> M E B) :
  emits P m -> (forall w a, fst (m w) = Ok a -> R a) ->
  (forall a, R a -> emits P (k a)) -> emits P (bind m k).
Proof.
  intros Hm HR Hk w. unfold bind.
  destruct (Hm w) as [evs [Ht Hall]]. specialize (HR w).
  destruct (m w) as [[a|err] w1]; simpl in *.
  - destruct (Hk a (HR a eq_refl) w1) as [evs2 [Ht2 Hall2]].
    exists (evs ++ evs2). rewrite Ht2, Ht, app_assoc. split; [reflexivity|].
    apply Forall_app; auto.
  - exists evs. auto.
Qed.

Lemma charDelay_pacing speed variation w ms :
  fst (charDelay speed variation w) = Ok ms -> pacing speed variation ms.
Proof.
  unfold charDelay, pacing. destruct (num_truthy variation); simpl.
  - intros Heq. injection Heq as <-. exists (draws w). reflexivity.
  - intros Heq. injection Heq as <-. reflexivity.
Qed.

Lemma emits_charDelay P speed variation : emits P (charDelay speed variation).
Proof.
  unfold charDelay. destruct (num_truthy variation); emits_all ltac:(idtac).
Qed.

Lemma emits_typeChars id speed variation text :
  emits (allowed id (pacing speed variation)) (typeChars speed variation text).
Proof.
  induction text as [|ch rest IH]; simpl; [apply emits_ret|].
  apply emits_bind_result with (R := pacing speed variation).
  - apply emits_charDelay.
  - intros w ms. apply charDelay_pacing.
  - intros ms Hms. apply emits_bind; [apply emits_emit; exact Hms|]. intros _.
    apply emits_bind; [apply emits_runVSCodeCommand|]. intros _. exact IH.
Qed.

Lemma emits_prePosition id wait params :
  emits (allowed id wait) (prePosition params).
Proof.
  unfold prePosition, positionCursor, selectRange.
  emits_all ltac:(exact I).
Qed.

Lemma emits_replacePreClear id wait mode :
  emits (allowed id wait) (replacePreClear mode).
Proof. unfold replacePreClear. emits_all ltac:(exact I). Qed.

Lemma emits_moveToEnd id wait : emits (allowed id wait) moveToEnd.
Proof. unfold moveToEnd. emits_all ltac:(exact I). Qed.

Lemma emits_placeAfterCursor id wait params :
  emits (allowed id wait) (placeAfterCursor params).
Proof.
  unfold placeAfterCursor. emits_all ltac:(exact I).
Qed.

Lemma emits_typeTry id params text :
  emits (allowed id (pacing (typingSpeed params text) (typingVariation params)))
        (typeTry id params text).
Proof.
  unfold typeTry.
  apply emits_bind; [apply emits_prePosition|]. intros _.
  apply emits_bind; [apply emits_replacePreClear|]. intros _.
  destruct (is_true (p_quick params)).
  - apply emits_bind;
      [destruct (String.eqb _ _); [apply emits_moveToEnd | apply emits_ret]|].
    intros _. emits_all ltac:(exact I).
  - apply emits_bind;
      [destruct (String.eqb _ _); [apply emits_moveToEnd | apply emits_ret]|].
    intros _. apply emits_bind; [apply emits_typeChars|]. intros _.
    apply emits_bind; [apply emits_placeAfterCursor|]. intros _.
    apply emits_sendResponse.
Qed.

Lemma emits_typeHandler id params :
  emits (allowed id (pacing (typingSpeed params (textOf params)) (typingVariation params)))
        (typeHandler id params).
Proof.
  unfold typeHandler.
  destruct (negb (opt_truthy (p_text params))); [apply emits_sendError|].
  apply emits_bind; [apply emits_gets|]. intros editor.
  destruct (negb editor); [apply emits_sendError|].
  apply emits_try_catch; [apply emits_typeTry|]. intros err. apply emits_sendError.
Qed.

Lemma emits_openFile id wait params : emits (allowed id wait) (openFile id params).
Proof.
  unfold openFile.
  emits_all ltac:(exact I).
Qed.

Lemma emits_createFile id wait params : emits (allowed id wait) (createFile id params).
Proof.
  unfold createFile.
  emits_all ltac:(exact I).
Qed.

Lemma emits_saveFile id wait : emits (allowed id wait) (saveFile id).
Proof.
  unfold saveFile.
  emits_all ltac:(exact I).
Qed.

Lemma emits_closeFile id wait params : emits (allowed id wait) (closeFile id params).
Proof.
  unfold closeFile.
  emits_all ltac:(exact I).
Qed.

Lemma emits_getFileContent id wait params :
  emits (allowed id wait) (getFileContent id params).
Proof.
  unfold getFileContent.
  emits_all ltac:(exact I).
Qed.

Lemma emits_runCommand id wait params : emits (allowed id wait) (runCommand id params).
Proof.
  unfold runCommand.
  emits_all ltac:(exact I).
Qed.

(** Everything the router does for a message is allowed for its id. *)
Lemma emits_route msg :
  emits (allowed (or_null (m_id msg))
           (pacing (typingSpeed (paramsOf msg) (textOf (paramsOf msg)))
                   (typingVariation (paramsOf msg))))
        (route msg).
Proof.
  unfold route. fold (paramsOf msg).
  destruct (negb (opt_truthy (actionOf msg))); [apply emits_sendError|].
  repeat (match goal with
          | |- emits _ (if ?b then _ else _) => destruct b
          end);
    auto using emits_openFile, emits_createFile, emits_saveFile, emits_closeFile,
      emits_getFileContent, emits_runCommand, emits_typeHandler, emits_sendError.
Qed.

Lemma emits_onMessage msg :
  emits (allowed (or_null (m_id msg))
           (pacing (typingSpeed (paramsOf msg) (textOf (paramsOf msg)))
                   (typingVariation (paramsOf msg))))
        (onMessage (Some msg)).
Proof.
  simpl. apply emits_try_catch; [apply emits_route|]. intros _. apply emits_ret.
Qed.

End Handlers.

(** ** Admission *)

Lemma str_truthy_nonempty (s : string) : s <> EmptyString -> str_truthy s = true.
Proof. destruct s; [congruence | reflexivity]. Qed.

Lemma same_token_iff (candidate : option string) (secret : string) :
  secret <> EmptyString ->
  same_token candidate (Some secret) = true <-> candidate = Some secret.
Proof.
  intros Hne. unfold same_token. destruct candidate as [c|].
  - rewrite andb_true_iff, String.eqb_eq. split.
    + intros [_ ->]. reflexivity.
    + intros Heq. injection Heq as ->. split; [apply str_truthy_nonempty, Hne | reflexivity].
  - split; discriminate.
Qed.

(** C8. With authentication enabled and a secret configured, a connection
    is accepted exactly when the token of the query parameter or the token
    taken from the authorization header equals the secret; every other
    attempt is rejected with status 401, "Invalid authentication token". *)
Theorem verifyClient_accepts_iff_token_matches (secret : string) (req : UpgradeRequest) :
  secret <> EmptyString ->
  (connectionVerdict true (Some secret) req = Accepted <->
     query_token req = Some secret \/ headerToken req = Some secret) /\
  (connectionVerdict true (Some secret) req <> Accepted ->
     connectionVerdict true (Some secret) req
       = Rejected 401 "Invalid authentication token").
Proof.
  intros Hne. unfold connectionVerdict, verifyClient. simpl opt_truthy.
  rewrite (str_truthy_nonempty secret Hne). simpl andb. cbv iota zeta.
  pose proof (same_token_iff (query_token req) secret Hne) as Hq.
  pose proof (same_token_iff (headerToken req) secret Hne) as Hh.
  destruct (same_token (query_token req) (Some secret));
    destruct (same_token (headerToken req) (Some secret)); simpl.
  - split; [|congruence]. split; [intros _; left; apply Hq; reflexivity | reflexivity].
  - split; [|congruence]. split; [intros _; left; apply Hq; reflexivity | reflexivity].
  - split; [|congruence]. split; [intros _; right; apply Hh; reflexivity | reflexivity].
  - split; [|reflexivity]. split; [discriminate|].
    intros [Hc|Hc]; [apply Hq in Hc | apply Hh in Hc]; discriminate.
Qed.

Lemma verifyClient_accepts_iff_token_matches_witness :
  "s3cret" <> EmptyString /\
  connectionVerdict true (Some "s3cret")
    {| query_token := None; authorization := Some "Bearer s3cret" |} = Accepted /\
  connectionVerdict true (Some "s3cret")
    {| query_token := Some "guess"; authorization := None |}
    = Rejected 401 "Invalid authentication token".
Proof.
  assert (Hne : "s3cret" <> EmptyString) by discriminate.
  split; [exact Hne|]. split.
  - apply (proj1 (verifyClient_accepts_iff_token_matches "s3cret"
             {| query_token := None; authorization := Some "Bearer s3cret" |} Hne)).
    right. reflexivity.
  - apply (proj2 (verifyClient_accepts_iff_token_matches "s3cret"
             {| query_token := Some "guess"; authorization := None |} Hne)).
    discriminate.
Defined.

(** ** Responses and ids *)

Section Router.
Context {E : Type} `{Host E}.

(** C1 (the error path). A request without an id and without a path gets an
    error message on the socket: [sendError] has no guard on the id, so the
    message goes out with a null id. *)
Theorem sendError_answers_a_notification (w : World E) :
  onMessage (Some {| m_id := None; m_action := Some "openFile";
                     m_method := None; m_params := None |}) w
  = (Ok tt,
     {| host := host w;
        trace := trace w ++
          [EvSend (Error JNull (cat "Missing " (cat (quoted "path") " parameter")))];
        draws := draws w |}).
Proof. reflexivity. Qed.

(** The success path of the same property: nothing a request without an id
    makes the server send is a result. *)
Lemma no_result_without_id (msg : Message) :
  or_null (m_id msg) = JNull ->
  emits (fun ev => forall m, ev = EvSend m -> exists err, m = Error JNull err)
        (onMessage (Some msg)).
Proof.
  intros Hid. eapply emits_weaken; [|apply emits_onMessage].
  rewrite Hid. intros ev Hev m ->. simpl in Hev.
  destruct m as [i r|i err|err].
  - destruct Hev as [_ Hnn]. congruence.
  - subst i. eauto.
  - contradiction.
Qed.

(** C9. An id that is present but falsy (0, the empty string, false) is
    normalized to null; [sendResponse] then sends nothing, and whatever the
    handling of such a request writes on the socket is an error, never a
    result: a successful completion produces no message at all. *)
Theorem falsy_id_is_a_notification (msg : Message) (v : JSON) :
  m_id msg = Some v -> falsy_scalar v ->
  or_null (m_id msg) = JNull /\
  (forall result (w : World E), sendResponse (or_null (m_id msg)) result w = (Ok tt, w)) /\
  emits (fun ev => forall m, ev = EvSend m -> exists err, m = Error JNull err)
        (onMessage (Some msg)).
Proof.
  intros Hv Hf.
  assert (Hid : or_null (m_id msg) = JNull).
  { rewrite Hv. destruct Hf; reflexivity. }
  split; [exact Hid|]. split.
  - intros result w. rewrite Hid. reflexivity.
  - apply no_result_without_id, Hid.
Qed.

End Router.

(** ** Pacing *)

Lemma num_truthy_false (q : Q) : num_truthy q = false <-> (q == 0)%Q.
Proof.
  unfold num_truthy. rewrite negb_false_iff. apply Qeq_bool_iff.
Qed.

Lemma num_or_0_eq (v : Q) : (num_or_0 (Some v) == v)%Q.
Proof.
  simpl. destruct (num_truthy v) eqn:Hv; [reflexivity|].
  apply num_truthy_false in Hv. rewrite Hv. reflexivity.
Qed.

Section Pacing.
Context {E : Type} `{Host E}.

Lemma typingSpeed_specified (params : Params) (text : string) :
  typingSpeed params text = specifiedDelay defaultSpeed params text.
Proof.
  unfold typingSpeed, specifiedDelay, text_length.
  destruct (p_duration params); [|reflexivity].
  rewrite Z.max_comm. reflexivity.
Qed.

(** C7. The delay per character is [duration / max(1, text.length)] when
    the request gives a duration, else the speed of the request, else the
    configured default speed; and a job without variation waits exactly
    that long before each character. *)
Theorem delay_is_duration_over_length_or_speed (id : JSON) (params : Params) :
  typingSpeed params (textOf params)
    = specifiedDelay defaultSpeed params (textOf params) /\
  ((typingVariation params == 0)%Q ->
   emits (fun ev => forall ms, ev = EvSleep ms ->
                    ms = specifiedDelay defaultSpeed params (textOf params))
         (typeHandler id params)).
Proof.
  split; [apply typingSpeed_specified|].
  intros Hv. eapply emits_weaken; [|apply emits_typeHandler].
  intros ev Hev ms ->. simpl in Hev. unfold pacing in Hev.
  apply num_truthy_false in Hv. rewrite Hv in Hev.
  rewrite Hev. apply typingSpeed_specified.
Qed.

End Pacing.

(** ** Positioning *)

Lemma bind_ok {E A B} (m : M E A) (k : A -> M E B) w a w' :
  m w = (Ok a, w') -> bind m k w = k a w'.
Proof. intros Hm. unfold bind. rewrite Hm. reflexivity. Qed.

Lemma bind_throw {E A B} (m : M E A) (k : A -> M E B) w err w' :
  m w = (Throw err, w') -> bind m k w = (Throw err, w').
Proof. intros Hm. unfold bind. rewrite Hm. reflexivity. Qed.

Lemma bind_assoc {E A B C} (m : M E A) (k : A -> M E B) (h : B -> M E C) w :
  bind (bind m k) h w = bind m (fun a => bind (k a) h) w.
Proof.
  unfold bind. destruct (m w) as [[a|err] w1]; reflexivity.
Qed.

Lemma bind_ext {E A B} (m : M E A) (f g : A -> M E B) w :
  (forall a w', f a w' = g a w') -> bind m f w = bind m g w.
Proof.
  intros Hfg. unfold bind. destruct (m w) as [[a|err] w1]; [apply Hfg | reflexivity].
Qed.

Lemma newPosition_ok {E} (l c : Z) (w : World E) :
  0 <= l -> 0 <= c -> newPosition l c w = (Ok {| line := l; character := c |}, w).
Proof.
  intros Hl Hc. unfold newPosition.
  destruct (Z.ltb_spec l 0); [lia|]. destruct (Z.ltb_spec c 0); [lia|]. reflexivity.
Qed.

Lemma text_length_nonneg (t : string) : 0 <= text_length t.
Proof. unfold text_length. lia. Qed.

Section Positioning.
Context {E : Type} `{Host E}.

Lemma lineAt_inside (n : Z) (w : World E) :
  0 <= n < Z.of_nat (List.length (doc_lines (host w))) ->
  lineAt n w = (Ok (nth (Z.to_nat n) (doc_lines (host w)) EmptyString), w).
Proof.
  intros Hn. unfold lineAt. destruct (Z.ltb_spec n 0); [lia|].
  destruct (nth_error (doc_lines (host w)) (Z.to_nat n)) as [t|] eqn:Ht.
  - rewrite (nth_error_nth _ _ _ Ht). reflexivity.
  - apply nth_error_None in Ht. lia.
Qed.

Lemma clamp_line (ls : list string) (rp : RawPosition) :
  ls <> [] -> in_document rp ->
  let docLine := Z.min (int_or_0 (raw_line rp)) (Z.of_nat (List.length ls) - 1) in
  0 <= docLine < Z.of_nat (List.length ls) /\ docLine = line (clamp ls rp).
Proof.
  intros Hne [Hl Hc]. cbv zeta. unfold clamp. simpl line.
  assert (0 < Z.of_nat (List.length ls)) by (destruct ls; [congruence | simpl; lia]).
  destruct (Z.leb_spec (Z.of_nat (List.length ls)) (int_or_0 (raw_line rp))); lia.
Qed.

Lemma clamp_character (ls : list string) (rp : RawPosition) :
  Z.min (int_or_0 (raw_character rp))
        (text_length (nth (Z.to_nat (line (clamp ls rp))) ls EmptyString))
  = character (clamp ls rp).
Proof.
  unfold clamp. simpl.
  match goal with |- context [Z.ltb ?a ?b] => destruct (Z.ltb_spec a b) end; lia.
Qed.

Lemma clamp_in_document (ls : list string) (rp : RawPosition) :
  ls <> [] -> in_document rp ->
  0 <= line (clamp ls rp) /\ 0 <= character (clamp ls rp).
Proof.
  intros Hne Hin. destruct (clamp_line ls rp Hne Hin) as [Hrange Hline].
  split; [lia|]. rewrite <- clamp_character.
  pose proof (text_length_nonneg (nth (Z.to_nat (line (clamp ls rp))) ls EmptyString)).
  destruct Hin. lia.
Qed.

Lemma setSelection_run (s : Selection) (w : World E) :
  setSelection s w
  = (Ok tt, {| host := set_selection s (host w);
               trace := trace w ++ [EvSelect s]; draws := draws w |}).
Proof. reflexivity. Qed.

(** Reading a clamped position: line count, line text, new position. *)
Lemma clamped_position (rp : RawPosition) (w : World E) {B}
    (k : Position -> M E B) :
  doc_lines (host w) <> [] -> in_document rp ->
  bind lineCount (fun n =>
    bind (lineAt (Z.min (int_or_0 (raw_line rp)) (n - 1))) (fun t =>
      bind (newPosition (Z.min (int_or_0 (raw_line rp)) (n - 1))
                        (Z.min (int_or_0 (raw_character rp)) (text_length t))) k)) w
  = k (clamp (doc_lines (host w)) rp) w.
Proof.
  intros Hne Hin. unfold bind at 1. simpl.
  destruct (clamp_line _ rp Hne Hin) as [Hrange Hline].
  destruct (clamp_in_document _ rp Hne Hin) as [Hl Hc].
  rewrite (bind_ok _ _ _ _ _ (lineAt_inside _ w Hrange)).
  rewrite Hline, clamp_character.
  rewrite (bind_ok _ _ _ _ _ (newPosition_ok _ _ w Hl Hc)).
  destruct (clamp (doc_lines (host w)) rp); reflexivity.
Qed.

Lemma positionCursor_run (rp : RawPosition) (w : World E) :
  doc_lines (host w) <> [] -> in_document rp ->
  positionCursor rp w = setSelection (cursor (clamp (doc_lines (host w)) rp)) w.
Proof.
  intros Hne Hin. unfold positionCursor.
  destruct Hin as [Hl Hc].
  rewrite (bind_ok _ _ _ _ _ (newPosition_ok _ _ w Hl Hc)).
  cbv zeta. simpl line. simpl character.
  rewrite clamped_position by (try split; assumption). reflexivity.
Qed.

Lemma selectRange_run (rs : RawSelection) (w : World E) :
  doc_lines (host w) <> [] -> in_document (raw_start rs) -> in_document (raw_end rs) ->
  selectRange rs w
  = setSelection {| anchor := clamp (doc_lines (host w)) (raw_start rs);
                    active := clamp (doc_lines (host w)) (raw_end rs) |} w.
Proof.
  intros Hne [Hsl Hsc] [Hel Hec]. unfold selectRange.
  rewrite (bind_ok _ _ _ _ _ (newPosition_ok _ _ w Hsl Hsc)).
  rewrite (bind_ok _ _ _ _ _ (newPosition_ok _ _ w Hel Hec)).
  cbv zeta. simpl line. simpl character.
  destruct (clamp_line _ (raw_start rs) Hne (conj Hsl Hsc)) as [Hsr Hsline].
  destruct (clamp_line _ (raw_end rs) Hne (conj Hel Hec)) as [Her Heline].
  destruct (clamp_in_document _ (raw_start rs) Hne (conj Hsl Hsc)) as [Hs0 Hs1].
  destruct (clamp_in_document _ (raw_end rs) Hne (conj Hel Hec)) as [He0 He1].
  unfold bind at 1. simpl.
  rewrite (bind_ok _ _ _ _ _ (lineAt_inside _ w Hsr)).
  unfold bind at 1. simpl.
  rewrite (bind_ok _ _ _ _ _ (lineAt_inside _ w Her)).
  rewrite Hsline, Heline, !clamp_character.
  rewrite (bind_ok _ _ _ _ _ (newPosition_ok _ _ w Hs0 Hs1)).
  rewrite (bind_ok _ _ _ _ _ (newPosition_ok _ _ w He0 He1)).
  destruct (clamp (doc_lines (host w)) (raw_start rs)),
           (clamp (doc_lines (host w)) (raw_end rs)); reflexivity.
Qed.

(** The cursor asked for after typing is selected as given. *)
Lemma placeAfterCursor_run (params : Params) (rp : RawPosition) (w : World E) :
  p_afterCursor params = Some rp -> in_document rp ->
  placeAfterCursor params w
  = setSelection (cursor {| line := int_or_0 (raw_line rp);
                            character := int_or_0 (raw_character rp) |}) w.
Proof.
  intros Hp [Hl Hc]. unfold placeAfterCursor. rewrite Hp.
  rewrite (bind_ok _ _ _ _ _ (newPosition_ok _ _ w Hl Hc)). reflexivity.
Qed.

(** C4. A position and the two ends of a selection given with a typing
    request are clamped before use: a line at or past the line count
    becomes the last line, a character past the end of that line becomes
    the length of the line; positioning then succeeds (nothing is thrown,
    nothing rejected) and selects exactly the clamped values, the position
    first and the selection after it. *)
Theorem positions_are_clamped (params : Params) (w : World E) :
  (forall s e, doc_lines (set_selection s e) = doc_lines e) ->
  doc_lines (host w) <> [] ->
  (forall rp, p_position params = Some rp -> in_document rp) ->
  (forall rs, p_selection params = Some rs ->
     in_document (raw_start rs) /\ in_document (raw_end rs)) ->
  let ls := doc_lines (host w) in
  let n := Z.of_nat (List.length ls) in
  let selections :=
    match p_position params with
    | Some rp => [cursor (clamp ls rp)]
    | None => []
    end ++
    match p_selection params with
    | Some rs => [{| anchor := clamp ls (raw_start rs);
                     active := clamp ls (raw_end rs) |}]
    | None => []
    end in
  prePosition params w
  = (Ok tt, {| host := fold_left (fun e s => set_selection s e) selections (host w);
               trace := trace w ++ map EvSelect selections;
               draws := draws w |}) /\
  (forall rp, n <= int_or_0 (raw_line rp) -> line (clamp ls rp) = n - 1) /\
  (forall rp,
     let len := text_length (nth (Z.to_nat (line (clamp ls rp))) ls EmptyString) in
     len < int_or_0 (raw_character rp) -> character (clamp ls rp) = len).
Proof.
  intros Hlaw Hne Hpos Hsel. cbv zeta. split; [|split].
  - unfold prePosition.
    destruct (p_position params) as [rp|]; destruct (p_selection params) as [rs|].
    + specialize (Hpos rp eq_refl). destruct (Hsel rs eq_refl) as [Hs He].
      erewrite bind_ok;
        [| rewrite positionCursor_run by assumption; apply setSelection_run ].
      rewrite selectRange_run; simpl host; rewrite ?Hlaw; try assumption.
      rewrite setSelection_run. simpl. rewrite <- app_assoc. reflexivity.
    + specialize (Hpos rp eq_refl).
      erewrite bind_ok;
        [| rewrite positionCursor_run by assumption; apply setSelection_run ].
      reflexivity.
    + destruct (Hsel rs eq_refl) as [Hs He].
      erewrite bind_ok; [| reflexivity ].
      rewrite selectRange_run by assumption. apply setSelection_run.
    + unfold bind, ret. simpl. rewrite app_nil_r. destruct w; reflexivity.
  - intros rp Hl. unfold clamp. simpl.
    destruct (Z.leb_spec (Z.of_nat (List.length (doc_lines (host w))))
                         (int_or_0 (raw_line rp))); [reflexivity | lia].
  - intros rp Hc. rewrite <- clamp_character. lia.
Qed.

End Positioning.

(** ** The typing job *)

Section TypingJob.
Context {E : Type} `{Host E}.

(** The [try] block is the prologue followed by the insertion. *)
Lemma typeTry_stages (id : JSON) (params : Params) (text : string) (w : World E) :
  typeTry id params text w
  = bind (typePrologue params) (fun _ => typeInsertion id params text) w.
Proof.
  unfold typeTry, typePrologue, typeInsertion, bind.
  destruct (prePosition params w) as [[[]|err] wa]; [|reflexivity].
  destruct (replacePreClear (typingMode params) wa) as [[[]|err] wb]; [|reflexivity].
  destruct (is_true (p_quick params));
    destruct ((if String.eqb (typingMode params) "append" then moveToEnd else ret tt) wb)
      as [[[]|err] wc]; reflexivity.
Qed.

Lemma typeHandler_run (id : JSON) (params : Params) (text : string) (w : World E) :
  p_text params = Some text -> text <> EmptyString ->
  activeTextEditor (host w) = true ->
  typeHandler id params w
  = try_catch (bind (typePrologue params) (fun _ => typeInsertion id params text))
              (fun err => sendError id (cat "Typing failed: " err)) w.
Proof.
  intros Ht Hne Hed. unfold typeHandler. rewrite Ht.
  destruct text as [|c text]; [congruence|].
  cbn [opt_truthy str_truthy negb str_or]. cbv zeta.
  unfold bind at 1, gets at 1. cbv beta iota. rewrite Hed.
  cbn [negb]. unfold try_catch. rewrite typeTry_stages. reflexivity.
Qed.

Lemma emits_typePrologue (params : Params) :
  emits positioning (typePrologue params).
Proof.
  unfold typePrologue, prePosition, positionCursor, selectRange, replacePreClear,
    moveToEnd, setSelection.
  emits_all ltac:(exact I).
Qed.

Lemma emits_quick (id : JSON) (params : Params) :
  p_quick params = Some true ->
  emits (fun ev => ~ animating ev) (typeHandler id params).
Proof.
  intros Hq. unfold typeHandler, typeTry. rewrite Hq. cbn [is_true].
  unfold prePosition, positionCursor, selectRange, replacePreClear, moveToEnd,
    setSelection, sendResponse, sendError.
  emits_all ltac:(simpl; tauto).
Qed.

(** C5. A typing request with [quick = true]: once the cursor is placed,
    the whole text is inserted by one edit at the cursor, the response
    (sent when the request has an id) reports [text.length] characters,
    and the job ends there: the trace has the positioning events, the one
    insertion and the response, no wait, no keystroke and no cursor
    placement after the insertion. *)
Theorem quick_mode_inserts_whole_text_once (id : JSON) (params : Params)
    (text : string) (w w1 : World E) (e2 : E) :
  p_text params = Some text -> text <> EmptyString ->
  activeTextEditor (host w) = true ->
  p_quick params = Some true ->
  typePrologue params w = (Ok tt, w1) ->
  edit_insert (active (selection (host w1))) text (host w1) = (Ok tt, e2) ->
  let reply :=
    match id with
    | JNull => []
    | _ => [EvSend (Result id (JStr (cat "Inserted "
              (cat (decimal (String.length text)) " characters (quick mode)"))))]
    end in
  typeHandler id params w
  = (Ok tt, {| host := e2;
               trace := trace w1 ++ EvInsert (active (selection (host w1))) text :: reply;
               draws := draws w1 |}) /\
  (exists pre, trace w1 = trace w ++ pre /\ Forall positioning pre) /\
  emits (fun ev => ~ animating ev) (typeHandler id params).
Proof.
  intros Ht Hne Hed Hq Hpro Hins. cbv zeta. split; [|split].
  - rewrite (typeHandler_run id params text w Ht Hne Hed).
    unfold try_catch. rewrite (bind_ok _ _ _ _ _ Hpro).
    unfold typeInsertion. rewrite Hq. cbn [is_true].
    unfold bind at 1, gets at 1. cbv beta iota.
    unfold bind at 1, emit at 1. cbv beta iota.
    unfold bind at 1, call at 1. cbv beta iota. cbn [host]. rewrite Hins.
    destruct id; simpl; rewrite <- ?app_assoc; simpl;
      rewrite ?app_nil_r; reflexivity.
  - pose proof (emits_typePrologue params w) as [pre [Htr Hall]].
    rewrite Hpro in Htr. exists pre. split; assumption.
  - apply emits_quick, Hq.
Qed.

(** Typing a text in two parts is typing the first part, then the second. *)
Lemma typeChars_app (speed variation : Q) (a b : string) (w : World E) :
  typeChars speed variation (cat a b) w
  = bind (typeChars speed variation a) (fun _ => typeChars speed variation b) w.
Proof.
  revert w. induction a as [|ch a IH]; intros w; [reflexivity|].
  simpl. rewrite bind_assoc. apply bind_ext. intros d wa.
  rewrite bind_assoc. apply bind_ext. intros _ wb.
  rewrite bind_assoc. apply bind_ext. intros _ wc.
  apply IH.
Qed.

(** One keystroke, accepted or not, adds its wait and its command. *)
Lemma typeChars_one (speed variation : Q) (ch : ascii) (w : World E) :
  exists ms,
    trace (snd (typeChars speed variation (String ch EmptyString) w))
    = trace w ++ [EvSleep ms; EvCommand "default:type" (typeArgs ch)].
Proof.
  simpl. unfold bind, charDelay, runVSCodeCommand, bind, emit, call, random, ret.
  destruct (num_truthy variation); simpl;
    destruct (executeCommand "default:type" (typeArgs ch) (host w)) as [[r|err] e];
    simpl; rewrite <- app_assoc; eexists; reflexivity.
Qed.

Lemma typeChars_typed (speed variation : Q) (text : string) (w w' : World E) :
  typeChars speed variation text w = (Ok tt, w') ->
  typed (trace w') = cat (typed (trace w)) text /\ sent (trace w') = sent (trace w).
Proof.
  revert w. induction text as [|ch rest IH]; intros w Hrun.
  - simpl in Hrun. injection Hrun as <-. rewrite cat_empty_r. auto.
  - change (String ch rest) with (cat (String ch EmptyString) rest) in Hrun.
    rewrite typeChars_app in Hrun. unfold bind in Hrun.
    destruct (typeChars_one speed variation ch w) as [ms Hone].
    destruct (typeChars speed variation (String ch EmptyString) w) as [[[]|err] wa];
      [|discriminate].
    simpl in Hone. destruct (IH wa Hrun) as [Htyped Hsent].
    rewrite Htyped, Hsent, Hone, typed_app, sent_app. simpl.
    rewrite cat_assoc, app_nil_r. auto.
Qed.

(** C2, as the code has it. When a keystroke of an animated job fails,
    the characters after it are never typed, nothing undoes the characters
    typed before it (the editor stays as the failure left it and the only
    thing added to the trace is the error message), and the error sent is
    ["Typing failed: "] followed by the text of the failure: it carries no
    count of the characters typed. *)
Theorem typing_failure_aborts_without_rollback (id : JSON) (params : Params)
    (text done rest : string) (ch : ascii) (err : string) (w w1 w2 w3 : World E) :
  let speed := typingSpeed params text in
  let variation := typingVariation params in
  p_text params = Some text -> text = cat done (String ch rest) ->
  activeTextEditor (host w) = true ->
  is_true (p_quick params) = false ->
  typePrologue params w = (Ok tt, w1) ->
  typeChars speed variation done w1 = (Ok tt, w2) ->
  typeChars speed variation (String ch EmptyString) w2 = (Throw err, w3) ->
  typeHandler id params w
  = (Ok tt, {| host := host w3;
               trace := trace w3 ++ [EvSend (Error id (cat "Typing failed: " err))];
               draws := draws w3 |}) /\
  typed (trace w3) = cat (typed (trace w1)) (cat done (String ch EmptyString)) /\
  sent (trace w3) = sent (trace w1).
Proof.
  intros speed variation Ht Hsplit Hed Hq Hpro Hdone Hfail. split; [|split].
  - assert (Hne : text <> EmptyString).
    { rewrite Hsplit. destruct done; discriminate. }
    rewrite (typeHandler_run id params text w Ht Hne Hed).
    unfold try_catch. rewrite (bind_ok _ _ _ _ _ Hpro).
    unfold typeInsertion. rewrite Hq.
    fold speed. fold variation.
    assert (Hrun : typeChars speed variation text w1 = (Throw err, w3)).
    { rewrite Hsplit, typeChars_app. rewrite (bind_ok _ _ _ _ _ Hdone).
      change (String ch rest) with (cat (String ch EmptyString) rest).
      rewrite typeChars_app. apply bind_throw. exact Hfail. }
    rewrite (bind_throw _ _ _ _ _ Hrun). reflexivity.
  - destruct (typeChars_typed _ _ _ _ _ Hdone) as [Htyped _].
    destruct (typeChars_one speed variation ch w2) as [ms Hone].
    rewrite Hfail in Hone. simpl in Hone.
    rewrite Hone, typed_app, Htyped. simpl. rewrite cat_assoc. reflexivity.
  - destruct (typeChars_typed _ _ _ _ _ Hdone) as [_ Hsent].
    destruct (typeChars_one speed variation ch w2) as [ms Hone].
    rewrite Hfail in Hone. simpl in Hone.
    rewrite Hone, sent_app, Hsent. simpl. apply app_nil_r.
Qed.

End TypingJob.

(** ** Reading a file *)

Section Reading.
Context {E : Type} `{Host E}.

(** C10. [getFileContent] with a path reads the bytes of the file from the
    file system and decodes them as UTF-8; the state of the editor host
    (the active document, its text, the selection) is after the request
    what it was before, whether the read succeeds or not. *)
Theorem getFileContent_reads_without_touching_the_editor
    (msg : Message) (path : string) (w : World E) :
  actionOf msg = Some "getFileContent" ->
  p_path (paramsOf msg) = Some path -> path <> EmptyString ->
  let w' := snd (onMessage (Some msg) w) in
  let id := or_null (m_id msg) in
  host w' = host w /\
  (activeTextEditor (host w') = activeTextEditor (host w) /\
   getText (host w') = getText (host w) /\
   selection (host w') = selection (host w)) /\
  trace w' = trace w ++
    match fs_readFile path (host w) with
    | Ok fileContent =>
        match id with
        | JNull => []
        | _ => [EvSend (Result id (JObj [("path", JStr path);
                                         ("content", JStr (Buffer_toString fileContent))]))]
        end
    | Throw _ =>
        [EvSend (Error id
           (cat "Could not read file (not found or inaccessible): " path))]
    end.
Proof.
  intros Hact Hpath Hne. cbv zeta.
  assert (Hrun : snd (onMessage (Some msg) w)
                 = snd (getFileContent (or_null (m_id msg)) (paramsOf msg) w)).
  { unfold onMessage, try_catch, route. rewrite Hact. fold (paramsOf msg).
    cbn. destruct (getFileContent _ _ w) as [[[]|err] w1]; reflexivity. }
  rewrite Hrun. unfold getFileContent. rewrite Hpath.
  destruct path as [|c path]; [congruence|].
  cbn [opt_truthy str_truthy str_or]. unfold try_catch, bind, lift_outcome.
  destruct (fs_readFile (String c path) (host w)) as [fileContent|err].
  - destruct (or_null (m_id msg)); simpl; rewrite ?app_nil_r; auto.
  - simpl. auto.
Qed.

End Reading.

(** ** The properties on the reference host *)

#[local] Existing Instance quietHost.

Lemma falsy_id_is_a_notification_witness :
  m_id (request (Some (JNum 0)) "type" scenario_replace) = Some (JNum 0) /\
  falsy_scalar (JNum 0) /\
  (or_null (m_id (request (Some (JNum 0)) "type" scenario_replace)) = JNull /\
   (forall result (w : World Buffer.State),
      sendResponse (or_null (m_id (request (Some (JNum 0)) "type" scenario_replace)))
        result w = (Ok tt, w)) /\
   emits (fun ev => forall m, ev = EvSend m -> exists err, m = Error JNull err)
         (onMessage (H := quietHost)
            (Some (request (Some (JNum 0)) "type" scenario_replace)))).
Proof.
  split; [reflexivity|]. split; [constructor|].
  exact (falsy_id_is_a_notification (H := quietHost)
           (request (Some (JNum 0)) "type" scenario_replace) (JNum 0)
           eq_refl falsy_zero).
Defined.

(** A quick replacement sent with the id 0 changes the document and
    writes nothing on the socket. *)
Example falsy_id_success_is_silent :
  let w := snd (onMessage (H := quietHost)
                  (Some (request (Some (JNum 0)) "type" scenario_replace)) two_lines) in
  Buffer.lines (host w) = ["ab"; "z"] /\ sent (trace w) = [].
Proof. vm_compute. split; reflexivity. Qed.

Lemma delay_is_duration_over_length_or_speed_witness :
  (typingVariation scenario_duration == 0)%Q /\
  typingSpeed (H := quietHost) scenario_duration (textOf scenario_duration) = (300 # 2)%Q /\
  emits (fun ev => forall ms, ev = EvSleep ms ->
                   ms = specifiedDelay 50 scenario_duration (textOf scenario_duration))
        (typeHandler (H := quietHost) (JNum 1) scenario_duration).
Proof.
  assert (Hv : (typingVariation scenario_duration == 0)%Q) by reflexivity.
  split; [exact Hv|].
  destruct (delay_is_duration_over_length_or_speed (H := quietHost) (JNum 1)
              scenario_duration) as [Hspeed Hwait].
  split; [reflexivity | exact (Hwait Hv)].
Defined.

(** C3, as the specification states it, fails: with variation 2 and a draw
    of 0 the job waits -50 ms before each character, although the fraction
    clamped into [0, 1] would be 1 and the least wait 0. *)
Lemma variation_above_one_waits_negative :
  In (EvSleep (-50)) (trace jitter_run) /\
  (-50 < 0)%Q /\
  (clampedJitter 2 == 1)%Q /\
  (50 * (1 + clampedJitter 2 * -1) == 0)%Q.
Proof.
  split; [vm_compute; left; reflexivity|].
  split; [reflexivity|]. split; reflexivity.
Qed.

Lemma positions_are_clamped_witness :
  (forall s e, doc_lines (Host := quietHost) (set_selection (Host := quietHost) s e)
               = doc_lines (Host := quietHost) e) /\
  doc_lines (Host := quietHost) (host two_lines) <> [] /\
  prePosition (H := quietHost) scenario_positions two_lines
  = (Ok tt,
     {| host := Buffer.select
                  {| anchor := {| line := 0; character := 2 |};
                     active := {| line := 1; character := 0 |} |}
                  (host two_lines);
        trace := [EvSelect (cursor {| line := 1; character := 1 |});
                  EvSelect {| anchor := {| line := 0; character := 2 |};
                              active := {| line := 1; character := 0 |} |}];
        draws := O |}).
Proof.
  assert (Hlaw : forall s e,
            doc_lines (Host := quietHost) (set_selection (Host := quietHost) s e)
            = doc_lines (Host := quietHost) e)
    by (intros s e; reflexivity).
  assert (Hne : doc_lines (Host := quietHost) (host two_lines) <> [])
    by discriminate.
  split; [exact Hlaw|]. split; [exact Hne|].
  refine (proj1 (positions_are_clamped (H := quietHost) scenario_positions two_lines
                   Hlaw Hne _ _)).
  - intros rp Heq. injection Heq as <-. split; simpl; lia.
  - intros rs Heq. injection Heq as <-. repeat split; simpl; lia.
Defined.

Lemma quick_mode_inserts_whole_text_once_witness :
  typeHandler (H := quietHost) (JNum 4) scenario_replace two_lines
  = (Ok tt,
     {| host := Buffer.select (cursor {| line := 0; character := 2 |})
                  (Buffer.editing ["ab"; "z"] None);
        trace := [EvSelect {| anchor := {| line := 0; character := 0 |};
                              active := {| line := 0; character := 2 |} |};
                  EvDelete {| anchor := {| line := 0; character := 0 |};
                              active := {| line := 0; character := 2 |} |};
                  EvInsert {| line := 0; character := 0 |} "ab";
                  EvSend (Result (JNum 4) (JStr "Inserted 2 characters (quick mode)"))];
        draws := O |}).
Proof.
  pose (w1 := snd (typePrologue (H := quietHost) scenario_replace two_lines)).
  pose (e2 := snd (edit_insert (Host := quietHost)
                     (active (selection (host w1))) "ab" (host w1))).
  assert (Hne : "ab" <> EmptyString) by discriminate.
  destruct (quick_mode_inserts_whole_text_once (H := quietHost) (JNum 4)
              scenario_replace "ab" two_lines w1 e2
              eq_refl Hne eq_refl eq_refl eq_refl eq_refl) as [Hrun _].
  rewrite Hrun. vm_compute. reflexivity.
Defined.

Lemma typing_failure_aborts_without_rollback_witness :
  typeHandler (JNum 1) (typeParams "abcd") (closing_after 2)
  = (Ok tt, failing_run 2) /\
  sent (trace (failing_run 2)) = [Error (JNum 1) "Typing failed: document was closed"] /\
  typed (trace (failing_run 2)) = "abc" /\
  Buffer.lines (host (failing_run 2)) = ["ab"].
Proof.
  pose (params := typeParams "abcd").
  pose (speed := typingSpeed params "abcd").
  pose (variation := typingVariation params).
  pose (w1 := snd (typePrologue params (closing_after 2))).
  pose (w2 := snd (typeChars speed variation "ab" w1)).
  pose (w3 := snd (typeChars speed variation "c" w2)).
  destruct (typing_failure_aborts_without_rollback (H := quietHost) (JNum 1) params
              "abcd" "ab" "d" "c"%char "document was closed"
              (closing_after 2) w1 w2 w3
              eq_refl eq_refl eq_refl eq_refl eq_refl eq_refl eq_refl)
    as [Hrun [Htyped Hsent]].
  split; [etransitivity; [exact Hrun | vm_compute; reflexivity]|].
  vm_compute. repeat split; reflexivity.
Defined.

(** C2, as the specification states it, fails: a job that fails after one
    character and a job that fails after three send the same error message;
    the message does not tell how many characters were typed. *)
Lemma failure_message_carries_no_count :
  sent (trace (failing_run 1)) = sent (trace (failing_run 3)) /\
  sent (trace (failing_run 1))
    = [Error (JNum 1) "Typing failed: document was closed"] /\
  Buffer.lines (host (failing_run 1)) = ["a"] /\
  Buffer.lines (host (failing_run 3)) = ["abc"].
Proof. vm_compute. repeat split; reflexivity. Qed.

(** C6 (the code at the failing input). A cursor asked for after typing is
    selected as it is given: on the one-line document "axy" the position
    (99, 99) becomes the selection, where clamping gives (0, 3). *)
Theorem afterCursor_is_selected_unclamped :
  Buffer.lines (host after_run) = ["axy"] /\
  Buffer.sel (host after_run) = cursor {| line := 99; character := 99 |} /\
  In (EvSelect (cursor {| line := 99; character := 99 |})) (trace after_run) /\
  clamp ["axy"] (pos 99 99) = {| line := 0; character := 3 |}.
Proof. vm_compute. repeat split; try reflexivity. right. right. left. reflexivity. Qed.

Lemma getFileContent_reads_without_touching_the_editor_witness :
  actionOf (request (Some (JNum 3)) "getFileContent" scenario_read)
    = Some "getFileContent" /\
  "/tmp/a.txt" <> EmptyString /\
  host (snd (onMessage (Some (request (Some (JNum 3)) "getFileContent" scenario_read))
               with_file)) = host with_file /\
  trace (snd (onMessage (Some (request (Some (JNum 3)) "getFileContent" scenario_read))
                with_file))
  = [EvSend (Result (JNum 3) (JObj [("path", JStr "/tmp/a.txt"); ("content", JStr "hi")]))].
Proof.
  assert (Hne : "/tmp/a.txt" <> EmptyString) by discriminate.
  split; [reflexivity|]. split; [exact Hne|].
  destruct (getFileContent_reads_without_touching_the_editor (H := quietHost)
              (request (Some (JNum 3)) "getFileContent" scenario_read)
              "/tmp/a.txt" with_file eq_refl eq_refl Hne) as [Hhost [_ Htrace]].
  split; [exact Hhost | exact Htrace].
Defined.

(** * Further properties of the server *)

(** ** One reply per request *)

Section Replies.
Context {E : Type} `{Host E}.

Lemma quiet_of_emits {A} (m : M E A) : emits silent m -> quiet m.
Proof.
  intros Hm w. destruct (Hm w) as [evs [Ht Hall]]. rewrite Ht, sent_app.
  assert (Hs : sent evs = []).
  { clear Ht. induction Hall as [|ev evs Hev _ IH]; [reflexivity|].
    destruct ev; simpl in *; try exact IH. contradiction. }
  rewrite Hs. apply app_nil_r.
Qed.

Lemma steady_gets {A} (f : E -> A) : steady (gets f).
Proof. intros w. split; [reflexivity | eexists; reflexivity]. Qed.

Lemma answers_sendError id err : answers (E := E) id (sendError id err).
Proof.
  intros w. exists [Error id err]. simpl. rewrite sent_app. simpl.
  repeat split; eauto.
Qed.

Lemma answers_sendResponse id result : answers (E := E) id (sendResponse id result).
Proof.
  intros w. destruct id;
    [ exists []; simpl; rewrite app_nil_r; repeat split; eauto
    | eexists [Result _ result]; simpl; rewrite sent_app; simpl;
      repeat split; eauto; discriminate .. ].
Qed.

Lemma replies_of_answers {A} id (m : M E A) : answers id m -> replies id m.
Proof.
  intros Hm w. destruct (Hm w) as [l [Hs [Ha [a Hok]]]].
  exists l. rewrite Hok. auto.
Qed.

Lemma replies_bind {A B} id (m : M E A) (k : A -> M E B) :
  quiet m -> (forall a, replies id (k a)) -> replies id (bind m k).
Proof.
  intros Hm Hk w. unfold bind. specialize (Hm w).
  destruct (m w) as [[a|err] w1]; simpl in *.
  - rewrite <- Hm. apply Hk.
  - exists []. rewrite app_nil_r. auto.
Qed.

Lemma answers_bind {A B} id (m : M E A) (k : A -> M E B) :
  steady m -> (forall a, answers id (k a)) -> answers id (bind m k).
Proof.
  intros Hm Hk w. unfold bind. destruct (Hm w) as [Hs [a Ha]].
  destruct (m w) as [[a'|err] w1]; simpl in *; [|discriminate].
  rewrite <- Hs. apply Hk.
Qed.

Lemma answers_try_catch {A} id (m : M E A) (h : string -> M E A) :
  replies id m -> (forall err, answers id (h err)) -> answers id (try_catch m h).
Proof.
  intros Hm Hh w. unfold try_catch. destruct (Hm w) as [l [Hs Hl]].
  destruct (m w) as [[a|err] w1]; simpl in *.
  - exists l. eauto.
  - subst l. rewrite app_nil_r in Hs. rewrite <- Hs. apply Hh.
Qed.

Lemma quiet_call {A} (op : E -> outcome A * E) : quiet (call op).
Proof. apply quiet_of_emits, emits_call. Qed.

Lemma quiet_runVSCodeCommand name args : quiet (runVSCodeCommand name args).
Proof.
  apply quiet_of_emits. unfold runVSCodeCommand. emits_all ltac:(exact I).
Qed.

Lemma quiet_typePrologue params : quiet (typePrologue params).
Proof.
  apply quiet_of_emits.
  unfold typePrologue, prePosition, positionCursor, selectRange, replacePreClear,
    moveToEnd, setSelection.
  emits_all ltac:(exact I).
Qed.

Lemma emits_silent_typeChars speed variation text :
  emits silent (typeChars speed variation text).
Proof.
  induction text as [|ch rest IH]; simpl; [apply emits_ret|].
  apply emits_bind; [apply emits_charDelay|]. intros ms.
  apply emits_bind; [apply emits_emit; exact I|]. intros _.
  apply emits_bind; [|intros _; exact IH].
  unfold runVSCodeCommand. emits_all ltac:(exact I).
Qed.

Lemma quiet_placeAfterCursor params : quiet (placeAfterCursor params).
Proof.
  apply quiet_of_emits. unfold placeAfterCursor, setSelection.
  emits_all ltac:(exact I).
Qed.

Lemma replies_typeInsertion id params text :
  replies id (typeInsertion id params text).
Proof.
  unfold typeInsertion. destruct (is_true (p_quick params)).
  - apply replies_bind; [apply quiet_of_emits, emits_gets|]. intros sel.
    apply replies_bind; [apply quiet_of_emits, emits_emit; exact I|]. intros _.
    apply replies_bind; [apply quiet_call|]. intros _.
    apply replies_of_answers, answers_sendResponse.
  - apply replies_bind; [apply quiet_of_emits, emits_silent_typeChars|]. intros _.
    apply replies_bind; [apply quiet_placeAfterCursor|]. intros _.
    apply replies_of_answers, answers_sendResponse.
Qed.

Lemma replies_ext {A} id (m m' : M E A) :
  (forall w, m w = m' w) -> replies id m' -> replies id m.
Proof. intros Heq Hm w. rewrite Heq. apply Hm. Qed.

Lemma answers_typeHandler id params : answers id (typeHandler id params).
Proof.
  unfold typeHandler.
  destruct (negb (opt_truthy (p_text params))); [apply answers_sendError|].
  apply answers_bind; [apply steady_gets|]. intros editor.
  destruct (negb editor); [apply answers_sendError|].
  apply answers_try_catch; [|intros err; apply answers_sendError].
  eapply replies_ext; [intros w; apply typeTry_stages|].
  apply replies_bind; [apply quiet_typePrologue|]. intros _.
  apply replies_typeInsertion.
Qed.

Lemma answers_openFile id params : answers id (openFile id params).
Proof.
  unfold openFile. destruct (negb _); [apply answers_sendError|].
  apply answers_try_catch; [|intros err; apply answers_sendError].
  apply replies_bind; [apply quiet_call|]. intros _.
  apply replies_of_answers, answers_sendResponse.
Qed.

Lemma answers_createFile id params : answers id (createFile id params).
Proof.
  unfold createFile. destruct (negb _); [apply answers_sendError|].
  apply answers_bind; [apply steady_gets|]. intros fileExists.
  destruct fileExists; [apply answers_sendError|].
  apply answers_try_catch; [|intros err; apply answers_sendError].
  apply replies_bind; [apply quiet_call|]. intros _.
  apply replies_bind; [apply quiet_call|]. intros _.
  apply replies_of_answers, answers_sendResponse.
Qed.

Lemma answers_saveFile id : answers id (saveFile id).
Proof.
  unfold saveFile. apply answers_bind; [apply steady_gets|]. intros editor.
  destruct (negb editor); [apply answers_sendError|].
  apply answers_try_catch; [|intros err; apply answers_sendError].
  apply replies_bind; [apply quiet_call|]. intros _.
  apply replies_bind; [apply quiet_of_emits, emits_gets|]. intros name.
  apply replies_of_answers, answers_sendResponse.
Qed.

Lemma answers_closeFile id params : answers id (closeFile id params).
Proof.
  unfold closeFile. destruct (opt_truthy _).
  - apply answers_bind; [apply steady_gets|]. intros n.
    destruct (Nat.eqb n 0); [apply answers_sendError|].
    apply answers_try_catch; [|intros err; apply answers_sendError].
    apply replies_bind; [apply quiet_call|]. intros _.
    apply replies_of_answers, answers_sendResponse.
  - apply answers_bind; [apply steady_gets|]. intros editor.
    destruct (negb editor); [apply answers_sendError|].
    apply answers_bind; [apply steady_gets|]. intros filePath.
    apply answers_try_catch; [|intros err; apply answers_sendError].
    apply replies_bind; [apply quiet_runVSCodeCommand|]. intros _.
    apply replies_of_answers, answers_sendResponse.
Qed.

Lemma answers_getFileContent id params : answers id (getFileContent id params).
Proof.
  unfold getFileContent. destruct (opt_truthy _).
  - apply answers_try_catch; [|intros err; apply answers_sendError].
    apply replies_bind; [apply quiet_of_emits, emits_read|]. intros bytes.
    apply replies_of_answers, answers_sendResponse.
  - apply answers_bind; [apply steady_gets|]. intros editor.
    destruct (negb editor); [apply answers_sendError|].
    apply answers_bind; [apply steady_gets|]. intros content.
    apply answers_bind; [apply steady_gets|]. intros filePath.
    apply answers_sendResponse.
Qed.

Lemma answers_runCommand id params : answers id (runCommand id params).
Proof.
  unfold runCommand. destruct (negb _); [apply answers_sendError|].
  apply answers_try_catch; [|intros err; apply answers_sendError].
  apply replies_bind; [apply quiet_runVSCodeCommand|]. intros result.
  apply replies_of_answers, answers_sendResponse.
Qed.

Lemma answers_route msg : answers (or_null (m_id msg)) (route msg).
Proof.
  unfold route.
  destruct (negb (opt_truthy (actionOf msg))); [apply answers_sendError|].
  repeat (match goal with
          | |- answers _ (if ?b then _ else _) => destruct b
          end);
    auto using answers_openFile, answers_createFile, answers_saveFile,
      answers_closeFile, answers_getFileContent, answers_runCommand,
      answers_typeHandler, answers_sendError.
Qed.

(** The listener adds nothing to what the router does: no exception of a
    handler reaches the outer [catch]. *)
Lemma onMessage_is_route msg (w : World E) :
  onMessage (Some msg) w = (Ok tt, snd (route msg w)).
Proof.
  simpl. unfold try_catch. destruct (answers_route msg w) as [l [_ [_ [a Hok]]]].
  destruct (route msg w) as [[[]|err] w1]; simpl in *; [reflexivity | discriminate].
Qed.

Lemma onMessage_answers msg (w : World E) :
  exists l,
    sent (trace (snd (onMessage (Some msg) w))) = sent (trace w) ++ l /\
    answered (or_null (m_id msg)) l.
Proof.
  rewrite onMessage_is_route. simpl.
  destruct (answers_route msg w) as [l [Hs [Ha _]]]. eauto.
Qed.

(** X1. A request that follows the wire format, that is a [Message]: an
    id that is absent or a JSON value with finite numbers, an action and a
    method that are absent or strings, and parameters of the documented
    types (the path, content, command and text being strings when
    present), gets at most one message back, and exactly one when its id
    is truthy: a result or an error that carries the id unchanged.  Such a
    request whose id normalizes to null gets nothing or one error, and the
    listener returns on it.  Nothing is said of a payload outside the
    format, such as an id that [JSON.parse] reads as [Infinity] or a
    content that is not a string. *)
Theorem every_request_is_answered_once (msg : Message) (w : World E) :
  fst (onMessage (Some msg) w) = Ok tt /\
  exists l,
    sent (trace (snd (onMessage (Some msg) w))) = sent (trace w) ++ l /\
    answered (or_null (m_id msg)) l /\
    (List.length l <= 1)%nat /\
    (or_null (m_id msg) <> JNull -> List.length l = 1%nat).
Proof.
  split; [rewrite onMessage_is_route; reflexivity|].
  destruct (onMessage_answers msg w) as [l [Hs Ha]].
  exists l. split; [exact Hs|]. split; [exact Ha|].
  destruct l as [|[i r|i e|e] [|? ?]]; simpl in *; try contradiction;
    split; auto; intros; congruence.
Qed.

End Replies.

(** ** Routing *)

Section Routing.
Context {E : Type} `{Host E}.

Lemma route_action msg a :
  actionOf msg = Some a -> a <> EmptyString ->
  opt_truthy (actionOf msg) = true /\ str_or (actionOf msg) EmptyString = a.
Proof.
  intros Ha Hne. rewrite Ha. destruct a; [congruence|]. split; reflexivity.
Qed.

(** X2. A request without a usable action or method is answered with the
    "Missing required ..." error, and a request whose action is none of the
    seven known ones with "Unknown action: <name>"; in both cases nothing
    else happens: the editor host is left as it was. *)
Theorem unroutable_requests_only_get_an_error (msg : Message) (w : World E) :
  (opt_truthy (actionOf msg) = false ->
   onMessage (Some msg) w
   = (Ok tt,
      {| host := host w;
         trace := trace w ++
           [EvSend (Error (or_null (m_id msg))
              (cat "Missing required " (cat (quoted "action")
                 (cat " or " (cat (quoted "method") " field")))))];
         draws := draws w |})) /\
  (forall a, actionOf msg = Some a -> a <> EmptyString -> ~ In a known_actions ->
   onMessage (Some msg) w
   = (Ok tt,
      {| host := host w;
         trace := trace w ++
           [EvSend (Error (or_null (m_id msg)) (cat "Unknown action: " a))];
         draws := draws w |})).
Proof.
  split.
  - intros Hf. rewrite onMessage_is_route. unfold route. rewrite Hf. reflexivity.
  - intros a Ha Hne Hnot. rewrite onMessage_is_route. unfold route.
    destruct (route_action msg a Ha Hne) as [Ht Hs]. rewrite Ht, Hs. simpl negb.
    cbv iota.
    assert (Hneq : forall k, In k known_actions -> String.eqb a k = false).
    { intros k Hk. apply String.eqb_neq. intros ->. exact (Hnot Hk). }
    rewrite !Hneq by (simpl; tauto). reflexivity.
Qed.

(** X3. The router reads the command name from [action] and, when that is
    absent or empty, from [method]: a message is handled exactly like the
    message that carries the resolved name as its [action]. *)
Theorem method_stands_in_for_action (msg : Message) (w : World E) :
  (opt_truthy (m_action msg) = false -> actionOf msg = m_method msg) /\
  onMessage (Some msg) w
  = onMessage (Some {| m_id := m_id msg; m_action := actionOf msg;
                       m_method := None; m_params := m_params msg |}) w.
Proof.
  split.
  - intros Hf. unfold actionOf. rewrite Hf. reflexivity.
  - simpl. unfold try_catch, route, paramsOf. simpl m_id. simpl m_params.
    assert (Hact : opt_truthy (actionOf msg) = true ->
                   actionOf {| m_id := m_id msg; m_action := actionOf msg;
                               m_method := None; m_params := m_params msg |}
                   = actionOf msg).
    { intros Ht. unfold actionOf at 1. simpl. rewrite Ht. reflexivity. }
    destruct (opt_truthy (actionOf msg)) eqn:Ht.
    + rewrite (Hact eq_refl), Ht. reflexivity.
    + assert (Hf : opt_truthy
                   (actionOf {| m_id := m_id msg; m_action := actionOf msg;
                                m_method := None; m_params := m_params msg |})
                   = false).
      { unfold actionOf at 1. simpl. rewrite Ht. reflexivity. }
      rewrite Hf. reflexivity.
Qed.

Lemma route_createFile msg (w : World E) :
  actionOf msg = Some "createFile" ->
  route msg w = createFile (or_null (m_id msg)) (paramsOf msg) w.
Proof. intros Ha. unfold route. rewrite Ha. reflexivity. Qed.

Lemma route_getFileContent msg (w : World E) :
  actionOf msg = Some "getFileContent" ->
  route msg w = getFileContent (or_null (m_id msg)) (paramsOf msg) w.
Proof. intros Ha. unfold route. rewrite Ha. reflexivity. Qed.

Lemma route_type msg (w : World E) :
  actionOf msg = Some "type" ->
  route msg w = typeHandler (or_null (m_id msg)) (paramsOf msg) w.
Proof. intros Ha. unfold route. rewrite Ha. reflexivity. Qed.

(** X4. [createFile] never overwrites: when the path already exists the
    request is answered with "File already exists: <path>" and the host,
    its file system included, is left as it was. *)
Theorem createFile_never_overwrites (msg : Message) (path : string) (w : World E) :
  actionOf msg = Some "createFile" ->
  p_path (paramsOf msg) = Some path -> path <> EmptyString ->
  fs_stat path (host w) = true ->
  onMessage (Some msg) w
  = (Ok tt,
     {| host := host w;
        trace := trace w ++
          [EvSend (Error (or_null (m_id msg)) (cat "File already exists: " path))];
        draws := draws w |}).
Proof.
  intros Ha Hp Hne Hex. rewrite onMessage_is_route, route_createFile by exact Ha.
  unfold createFile. rewrite Hp. destruct path as [|c path]; [congruence|].
  cbn [opt_truthy str_truthy negb str_or]. unfold bind, gets. cbv beta iota.
  rewrite Hex. reflexivity.
Qed.

(** X5. Round trip. On a host whose file system returns what was written
    and whose codec decodes what it encoded, creating a file that does not
    exist and then reading it sends "Created file: <path>" and then the
    content that was given. *)
Theorem createFile_then_getFileContent (id1 id2 : JSON) (path content : string)
    (w : World E) (e1 e2 : E) :
  truthy id1 = true -> truthy id2 = true -> path <> EmptyString ->
  fs_stat path (host w) = false ->
  fs_writeFile path (Buffer_from content) (host w) = (Ok tt, e1) ->
  openAndShow path e1 = (Ok tt, e2) ->
  fs_readFile path e2 = Ok (Buffer_from content) ->
  Buffer_toString (Buffer_from content) = content ->
  let w1 := snd (onMessage (Some (createRequest id1 path content)) w) in
  let w2 := snd (onMessage (Some (readRequest id2 path)) w1) in
  host w2 = e2 /\
  trace w2 = trace w ++
    [EvSend (Result id1 (JStr (cat "Created file: " path)));
     EvSend (Result id2 (JObj [("path", JStr path); ("content", JStr content)]))].
Proof.
  intros Hid1 Hid2 Hne Hstat Hwrite Hopen Hread Hcodec. cbv zeta.
  assert (Hn1 : or_null (Some id1) = id1) by (simpl; rewrite Hid1; reflexivity).
  assert (Hn2 : or_null (Some id2) = id2) by (simpl; rewrite Hid2; reflexivity).
  assert (Hcontent : str_or (Some content) EmptyString = content)
    by (destruct content; reflexivity).
  assert (Hcreate :
    snd (onMessage (Some (createRequest id1 path content)) w)
    = {| host := e2;
         trace := trace w ++ [EvSend (Result id1 (JStr (cat "Created file: " path)))];
         draws := draws w |}).
  { rewrite onMessage_is_route, route_createFile by reflexivity.
    cbn [snd m_id createRequest]. rewrite Hn1.
    unfold createFile, paramsOf. cbn [m_params createRequest p_path p_content].
    rewrite Hcontent.
    destruct path as [|c path]; [congruence|].
    cbn [opt_truthy str_truthy negb str_or]. unfold bind at 1, gets at 1.
    cbv beta iota. rewrite Hstat. unfold try_catch.
    unfold bind at 1, call at 1. cbv beta iota. rewrite Hwrite.
    unfold bind at 1, call at 1. cbv beta iota. cbn [host]. rewrite Hopen.
    destruct id1; try discriminate; reflexivity. }
  rewrite Hcreate.
  rewrite onMessage_is_route, route_getFileContent by reflexivity.
  cbn [snd m_id readRequest]. rewrite Hn2.
  unfold getFileContent, paramsOf. cbn [m_params readRequest p_path].
  destruct path as [|c path]; [congruence|].
  cbn [opt_truthy str_truthy negb str_or]. unfold try_catch, bind, lift_outcome.
  cbn [host]. rewrite Hread, Hcodec.
  destruct id2; try discriminate; simpl; rewrite <- app_assoc; auto.
Qed.

End Routing.

(** ** What a request may edit *)

Section Edits.
Context {E : Type} `{Host E}.
Variable P : Event -> Prop.
Hypothesis HP : harmless P.

Ltac harmless_side :=
  destruct HP as [Hsel [Hsleep [Hcmd Hsend]]];
  first [apply Hsel | apply Hsleep | apply Hcmd | apply Hsend].

Lemma harmless_setSelection s : emits P (setSelection s).
Proof. unfold setSelection. emits_all ltac:(harmless_side). Qed.

Lemma harmless_sendResponse id result : emits P (sendResponse (E := E) id result).
Proof. unfold sendResponse. emits_all ltac:(harmless_side). Qed.

Lemma harmless_sendError id err : emits P (sendError (E := E) id err).
Proof. unfold sendError. emits_all ltac:(harmless_side). Qed.

Lemma harmless_runVSCodeCommand name args : emits P (runVSCodeCommand name args).
Proof. unfold runVSCodeCommand. emits_all ltac:(harmless_side). Qed.

Lemma harmless_prePosition params : emits P (prePosition params).
Proof.
  unfold prePosition, positionCursor, selectRange, setSelection.
  emits_all ltac:(harmless_side).
Qed.

Lemma harmless_moveToEnd : emits P moveToEnd.
Proof. unfold moveToEnd, setSelection. emits_all ltac:(harmless_side). Qed.

Lemma harmless_placeAfterCursor params : emits P (placeAfterCursor params).
Proof.
  unfold placeAfterCursor, setSelection. emits_all ltac:(harmless_side).
Qed.

Lemma harmless_typeChars speed variation text :
  emits P (typeChars speed variation text).
Proof.
  induction text as [|ch rest IH]; simpl; [apply emits_ret|].
  apply emits_bind; [apply emits_charDelay|]. intros ms.
  apply emits_bind; [apply emits_emit; harmless_side|]. intros _.
  apply emits_bind; [apply harmless_runVSCodeCommand | intros _; exact IH].
Qed.

Lemma harmless_openFile id params : emits P (openFile id params).
Proof.
  unfold openFile, sendResponse, sendError. emits_all ltac:(harmless_side).
Qed.

Lemma harmless_createFile id params : emits P (createFile id params).
Proof.
  unfold createFile, sendResponse, sendError. emits_all ltac:(harmless_side).
Qed.

Lemma harmless_saveFile id : emits P (saveFile id).
Proof.
  unfold saveFile, sendResponse, sendError. emits_all ltac:(harmless_side).
Qed.

Lemma harmless_closeFile id params : emits P (closeFile id params).
Proof.
  unfold closeFile, runVSCodeCommand, sendResponse, sendError.
  emits_all ltac:(harmless_side).
Qed.

Lemma harmless_getFileContent id params : emits P (getFileContent id params).
Proof.
  unfold getFileContent, sendResponse, sendError. emits_all ltac:(harmless_side).
Qed.

Lemma harmless_runCommand id params : emits P (runCommand id params).
Proof.
  unfold runCommand, runVSCodeCommand, sendResponse, sendError.
  emits_all ltac:(harmless_side).
Qed.

(** The typing handler, given what its two edits satisfy. *)
Lemma harmless_typeHandler id params :
  (typingMode params = "replace" -> forall s, P (EvDelete s)) ->
  (p_quick params = Some true -> forall p, P (EvInsert p (textOf params))) ->
  emits P (typeHandler id params).
Proof.
  intros Hdel Hins. unfold typeHandler.
  destruct (negb (opt_truthy (p_text params))); [apply harmless_sendError|].
  apply emits_bind; [apply emits_gets|]. intros editor.
  destruct (negb editor); [apply harmless_sendError|].
  apply emits_try_catch; [|intros err; apply harmless_sendError].
  unfold typeTry. fold (textOf params).
  apply emits_bind; [apply harmless_prePosition|]. intros _.
  apply emits_bind.
  { unfold replacePreClear. apply emits_bind; [apply emits_gets|]. intros sel.
    destruct (String.eqb (typingMode params) "replace") eqn:Hmode;
      [|apply emits_ret].
    apply String.eqb_eq in Hmode.
    destruct (negb (isEmpty sel)); simpl; [|apply emits_ret].
    apply emits_bind; [apply emits_emit, Hdel, Hmode | intros _; apply emits_call]. }
  intros _.
  assert (Hmove : emits P (if String.eqb (typingMode params) "append"
                           then moveToEnd else ret (E := E) tt))
    by (destruct (String.eqb _ _); [apply harmless_moveToEnd | apply emits_ret]).
  destruct (is_true (p_quick params)) eqn:Hq.
  - assert (Hquick : p_quick params = Some true)
      by (destruct (p_quick params) as [[|]|]; simpl in Hq; congruence).
    apply emits_bind; [exact Hmove|]. intros _.
    apply emits_bind; [apply emits_gets|]. intros sel.
    apply emits_bind; [apply emits_emit, Hins, Hquick|]. intros _.
    apply emits_bind; [apply emits_call|]. intros _.
    apply harmless_sendResponse.
  - apply emits_bind; [exact Hmove|]. intros _.
    apply emits_bind; [apply harmless_typeChars|]. intros _.
    apply emits_bind; [apply harmless_placeAfterCursor|]. intros _.
    apply harmless_sendResponse.
Qed.

End Edits.

Section EditsOfRequests.
Context {E : Type} `{Host E}.

Lemma edits_allowed_harmless msg : harmless (edits_allowed msg).
Proof. repeat split. Qed.

(** X6. Through the edit builder a request deletes text only when it is
    a [type] request in replace mode, and inserts text only when it is a
    [type] request with [quick = true], and then the whole text at once;
    no other action deletes or inserts. *)
Theorem only_typing_edits_the_document (msg : Message) :
  emits (edits_allowed msg) (onMessage (E := E) (Some msg)).
Proof.
  pose proof (edits_allowed_harmless msg) as Hh.
  simpl. apply emits_try_catch; [|intros _; apply emits_ret].
  unfold route. fold (paramsOf msg).
  destruct (negb (opt_truthy (actionOf msg))) eqn:Hact;
    [apply harmless_sendError, Hh|].
  repeat (match goal with
          | |- emits _ (if String.eqb _ "type" then _ else _) => fail 1
          | |- emits _ (if ?b then _ else _) => destruct b
          end);
    auto using harmless_openFile, harmless_createFile, harmless_saveFile,
      harmless_closeFile, harmless_getFileContent, harmless_runCommand.
  destruct (String.eqb (str_or (actionOf msg) EmptyString) "type") eqn:Htype;
    [|apply harmless_sendError, Hh].
  apply String.eqb_eq in Htype.
  assert (Ha : actionOf msg = Some "type").
  { destruct (actionOf msg) as [a|]; [|discriminate].
    simpl in Htype. destruct (str_truthy a); [congruence | discriminate]. }
  apply harmless_typeHandler; [exact Hh | |]; simpl; auto.
Qed.

End EditsOfRequests.

(** ** A whole animated job *)

Lemma waits_app (a b : list Event) : waits (a ++ b) = waits a ++ waits b.
Proof.
  induction a as [|ev a IH]; simpl; [reflexivity|].
  destruct ev; simpl; rewrite IH; reflexivity.
Qed.

Lemma nth_error_last {A} (l : list A) (x d : A) :
  nth_error l (List.length l - 1) = Some x -> last l d = x.
Proof.
  induction l as [|a l IH]; [discriminate|].
  destruct l as [|b l].
  - simpl. congruence.
  - intros Hn. apply IH. simpl in *. rewrite Nat.sub_0_r in *. exact Hn.
Qed.

Section ExactTyping.
Context {E : Type} `{Host E}.

Lemma keeps_draws_ret {A} (a : A) : keeps_draws (ret (E := E) a).
Proof. intros w. reflexivity. Qed.

Lemma keeps_draws_throw {A} (err : string) : keeps_draws (throw (E := E) (A := A) err).
Proof. intros w. reflexivity. Qed.

Lemma keeps_draws_gets {A} (f : E -> A) : keeps_draws (gets f).
Proof. intros w. reflexivity. Qed.

Lemma keeps_draws_call {A} (op : E -> outcome A * E) : keeps_draws (call op).
Proof. intros w. unfold call. destruct (op (host w)). reflexivity. Qed.

Lemma keeps_draws_emit (ev : Event) : keeps_draws (emit (E := E) ev).
Proof. intros w. reflexivity. Qed.

Lemma keeps_draws_lineAt (n : Z) : keeps_draws (lineAt n).
Proof.
  intros w. unfold lineAt.
  destruct (if Z.ltb n 0 then None else nth_error (doc_lines (host w)) (Z.to_nat n));
    reflexivity.
Qed.

Lemma keeps_draws_newPosition (l c : Z) : keeps_draws (newPosition (E := E) l c).
Proof.
  intros w. unfold newPosition. destruct (Z.ltb l 0); [reflexivity|].
  destruct (Z.ltb c 0); reflexivity.
Qed.

Lemma keeps_draws_bind {A B} (m : M E A) (k : A -> M E B) :
  keeps_draws m -> (forall a, keeps_draws (k a)) -> keeps_draws (bind m k).
Proof.
  intros Hm Hk w. unfold bind. specialize (Hm w).
  destruct (m w) as [[a|err] w1]; simpl in *; [rewrite Hk|]; exact Hm.
Qed.

Ltac draws_step :=
  first
    [ apply keeps_draws_ret | apply keeps_draws_throw | apply keeps_draws_gets
    | apply keeps_draws_call | apply keeps_draws_emit | apply keeps_draws_lineAt
    | apply keeps_draws_newPosition
    | apply keeps_draws_bind; [| intros ? ]
    | match goal with
      | |- keeps_draws (if ?b then _ else _) => destruct b
      | |- keeps_draws (match ?x with _ => _ end) => destruct x
      end ].

Lemma keeps_draws_typePrologue params : keeps_draws (typePrologue params).
Proof.
  unfold typePrologue, prePosition, positionCursor, selectRange, replacePreClear,
    moveToEnd, setSelection, lineCount.
  repeat draws_step.
Qed.

Lemma jitteredWaits_S (speed variation : Q) (d k : nat) :
  jitteredWaits speed variation d (S k)
  = jitteredWait speed variation d
    :: jitteredWaits speed variation
         (if num_truthy variation then S d else d) k.
Proof.
  unfold jitteredWaits. cbn [seq map]. rewrite Nat.add_0_r. f_equal.
  rewrite <- seq_shift, map_map. apply map_ext. intros i.
  unfold jitteredWait. destruct (num_truthy variation); [|reflexivity].
  rewrite Nat.add_succ_r. reflexivity.
Qed.

(** One turn of the loop, spelled out. *)
Lemma typeChars_cons (speed variation : Q) (ch : ascii) (rest : string) (w : World E) :
  typeChars speed variation (String ch rest) w
  = let next e :=
      {| host := e;
         trace := trace w ++ [EvSleep (jitteredWait speed variation (draws w));
                              EvCommand "default:type" (typeArgs ch)];
         draws := if num_truthy variation then S (draws w) else draws w |} in
    match executeCommand "default:type" (typeArgs ch) (host w) with
    | (Ok _, e) => typeChars speed variation rest (next e)
    | (Throw err, e) => (Throw err, next e)
    end.
Proof.
  cbn [typeChars]. unfold bind, charDelay, runVSCodeCommand, bind, emit, call,
    random, ret, jitteredWait.
  destruct (num_truthy variation); cbn [host trace draws];
    destruct (executeCommand "default:type" (typeArgs ch) (host w)) as [[r|err] e];
    rewrite <- app_assoc; reflexivity.
Qed.

(** The trace of the loop: for the characters it reached, in order, the
    wait computed from the next draw and then the keystroke. *)
Lemma typeChars_exact (speed variation : Q) (text : string) (w : World E) :
  exists k,
    (k <= String.length text)%nat /\
    trace (snd (typeChars speed variation text w))
    = trace w ++ keystrokes (jitteredWaits speed variation (draws w) k) text /\
    (forall u, fst (typeChars speed variation text w) = Ok u ->
               k = String.length text).
Proof.
  revert w. induction text as [|ch rest IH]; intros w.
  - exists O. simpl. rewrite app_nil_r. auto.
  - rewrite typeChars_cons. cbv zeta.
    destruct (executeCommand "default:type" (typeArgs ch) (host w)) as [[r|err] e].
    + match goal with
      | |- context [typeChars speed variation rest ?w1] =>
          destruct (IH w1) as [k [Hk [Htr Hok]]]
      end.
      exists (S k). split; [simpl; lia|]. split.
      * rewrite Htr. cbn [trace draws]. rewrite jitteredWaits_S. cbn [keystrokes].
        rewrite <- app_assoc. reflexivity.
      * intros u Hu. simpl. f_equal. eapply Hok, Hu.
    + exists 1%nat. split; [simpl; lia|]. split; [|discriminate].
      cbn [snd trace]. rewrite jitteredWaits_S. reflexivity.
Qed.

Lemma waits_keystrokes (ws : list Q) (text : string) :
  (List.length ws <= String.length text)%nat -> waits (keystrokes ws text) = ws.
Proof.
  revert text. induction ws as [|ms ws IH]; intros text Hlen; [reflexivity|].
  destruct text as [|ch rest]; [simpl in Hlen; lia|].
  simpl. rewrite IH by (simpl in Hlen; lia). reflexivity.
Qed.

Lemma jitteredWaits_length (speed variation : Q) (d k : nat) :
  List.length (jitteredWaits speed variation d k) = k.
Proof. unfold jitteredWaits. rewrite length_map, length_seq. reflexivity. Qed.

Lemma waits_sendError id err (w : World E) :
  waits (trace (snd (sendError id err w))) = waits (trace w).
Proof. simpl. rewrite waits_app. simpl. apply app_nil_r. Qed.

Lemma waits_sendResponse id result (w : World E) :
  waits (trace (snd (sendResponse id result w))) = waits (trace w).
Proof.
  destruct id; simpl; rewrite ?waits_app; simpl; rewrite ?app_nil_r; reflexivity.
Qed.

Lemma waits_of_positioning {A} (m : M E A) (w : World E) :
  emits positioning m -> waits (trace (snd (m w))) = waits (trace w).
Proof.
  intros Hm. destruct (Hm w) as [evs [Ht Hall]]. rewrite Ht, waits_app.
  assert (Hs : waits evs = []).
  { clear Ht. induction Hall as [|ev evs Hev _ IH]; [reflexivity|].
    destruct ev; simpl in *; try exact IH; contradiction. }
  rewrite Hs. apply app_nil_r.
Qed.

Lemma emits_positioning_placeAfterCursor params :
  emits positioning (placeAfterCursor (E := E) params).
Proof.
  unfold placeAfterCursor, setSelection. emits_all ltac:(exact I).
Qed.

Lemma waits_caught {A} (m : M E A) (w0 : World E) (k : string -> M E A) :
  waits (trace (snd (m w0))) = waits (trace w0) ->
  (forall err w', waits (trace (snd (k err w'))) = waits (trace w')) ->
  waits (trace (snd (let (o, w') := m w0 in
                     match o with
                     | Ok a => (Ok a, w')
                     | Throw err => k err w'
                     end)))
  = waits (trace w0).
Proof.
  intros Hm Hk. destruct (m w0) as [[a|err] w']; cbn [snd] in *; [exact Hm|].
  rewrite Hk. exact Hm.
Qed.

(** The waits of a typing request, whatever becomes of it: the waits of
    the characters it reached, each computed from the next draw. *)
Lemma typeHandler_waits (id : JSON) (params : Params) (w : World E) :
  exists k,
    (k <= String.length (textOf params))%nat /\
    waits (trace (snd (typeHandler id params w)))
    = waits (trace w) ++
      jitteredWaits (typingSpeed params (textOf params)) (typingVariation params)
        (draws w) k.
Proof.
  assert (Hnone : forall w' : World E,
            waits (trace w') = waits (trace w) ->
            exists k, (k <= String.length (textOf params))%nat /\
              waits (trace w')
              = waits (trace w) ++
                jitteredWaits (typingSpeed params (textOf params))
                  (typingVariation params) (draws w) k).
  { intros w' Hw'. exists O. split; [lia|]. rewrite Hw'. simpl.
    rewrite app_nil_r. reflexivity. }
  unfold typeHandler.
  destruct (negb (opt_truthy (p_text params))); [apply Hnone, waits_sendError|].
  unfold bind at 1, gets at 1. cbv beta iota.
  destruct (negb (activeTextEditor (host w))); [apply Hnone, waits_sendError|].
  unfold try_catch. rewrite typeTry_stages. fold (textOf params). unfold bind at 1.
  pose proof (waits_of_positioning (typePrologue params) w
                (emits_typePrologue params)) as Hpw.
  pose proof (keeps_draws_typePrologue params w) as Hpd.
  destruct (typePrologue params w) as [[[]|err] w1]; cbn [snd] in Hpw, Hpd;
    [| apply Hnone; rewrite waits_sendError; exact Hpw].
  unfold typeInsertion. destruct (is_true (p_quick params)).
  - unfold bind, gets, emit, call. cbv beta iota. cbn [host trace draws].
    destruct (edit_insert (active (selection (host w1))) (textOf params) (host w1))
      as [[[]|err] e]; apply Hnone;
      [rewrite (waits_caught (sendResponse id _))
         by (intros; first [apply waits_sendResponse | apply waits_sendError])
      | rewrite waits_sendError]; cbn [trace];
      rewrite waits_app; simpl; rewrite app_nil_r; exact Hpw.
  - set (speed := typingSpeed params (textOf params)).
    set (variation := typingVariation params).
    destruct (typeChars_exact speed variation (textOf params) w1)
      as [k [Hk [Htr _]]].
    assert (Hw2 : waits (trace (snd (typeChars speed variation (textOf params) w1)))
                  = waits (trace w) ++ jitteredWaits speed variation (draws w) k).
    { rewrite Htr, waits_app, Hpw, Hpd.
      rewrite waits_keystrokes by (rewrite jitteredWaits_length; exact Hk).
      reflexivity. }
    exists k. split; [exact Hk|]. rewrite <- Hw2. unfold bind at 1.
    destruct (typeChars speed variation (textOf params) w1) as [[[]|err] w2];
      cbn [snd]; [| apply waits_sendError].
    unfold bind at 1.
    pose proof (waits_of_positioning (placeAfterCursor params) w2
                  (emits_positioning_placeAfterCursor params)) as Hafter.
    destruct (placeAfterCursor params w2) as [[[]|err] w3]; cbn [snd] in Hafter;
      [rewrite (waits_caught (sendResponse id _))
         by (intros; first [apply waits_sendResponse | apply waits_sendError])
      | rewrite waits_sendError]; exact Hafter.
Qed.

(** C3, as the code has it. The variation of the request is used as it is
    given (0 when absent or zero), without clamping.  The waits of a
    typing request are, character after character,
    [speed * (1 + r * variation)] with [r = Math.random() * 2 - 1] taken
    from the next draw, so [r] lies in [-1, 1); the loop puts each of them
    right before the keystroke of its character.  A wait is not negative
    when the variation lies in [0, 1] and the speed is not negative, and
    it is exactly the speed when the variation is 0. *)
Theorem wait_uses_the_variation_unclamped (id : JSON) (params : Params) :
  (forall n, 0 <= Math_random n < 1)%Q ->
  let speed := typingSpeed params (textOf params) in
  let variation := typingVariation params in
  (forall v, p_variation params = Some v ->
     (variation == v)%Q /\ (num_truthy v = true -> variation = v)) /\
  (p_variation params = None -> variation = 0%Q) /\
  (forall n, num_truthy variation = true ->
     jitteredWait speed variation n
     = (speed * (1 + (Math_random n * 2 - 1) * variation))%Q /\
     (-1 <= Math_random n * 2 - 1 < 1)%Q) /\
  (forall w, exists k,
     (k <= String.length (textOf params))%nat /\
     waits (trace (snd (typeHandler id params w)))
     = waits (trace w) ++ jitteredWaits speed variation (draws w) k) /\
  (forall text w, exists k,
     (k <= String.length text)%nat /\
     trace (snd (typeChars speed variation text w))
     = trace w ++ keystrokes (jitteredWaits speed variation (draws w) k) text /\
     (forall u, fst (typeChars speed variation text w) = Ok u ->
                k = String.length text)) /\
  (forall n,
     (0 <= speed -> 0 <= variation <= 1 -> 0 <= jitteredWait speed variation n)%Q /\
     ((variation == 0)%Q -> jitteredWait speed variation n = speed)) /\
  emits (fun ev => forall ms, ev = EvSleep ms ->
           (exists r, -1 <= r < 1 /\ ms == speed * (1 + variation * r))%Q /\
           (0 <= speed -> 0 <= variation <= 1 -> 0 <= ms)%Q /\
           ((variation == 0)%Q -> ms = speed))
        (typeHandler id params).
Proof.
  intros Hrand speed variation.
  split; [|split; [|split; [|split; [|split; [|split]]]]].
  - intros v Hv. unfold variation, typingVariation. rewrite Hv. split.
    + apply num_or_0_eq.
    + intros Ht. simpl. rewrite Ht. reflexivity.
  - intros Hv. unfold variation, typingVariation. rewrite Hv. reflexivity.
  - intros n Ht. unfold jitteredWait. rewrite Ht. split; [reflexivity|].
    specialize (Hrand n). split; lra.
  - intros w. apply typeHandler_waits.
  - intros text w. apply typeChars_exact.
  - intros n. unfold jitteredWait. destruct (num_truthy variation) eqn:Htr.
    + specialize (Hrand n). set (u := Math_random n) in *. split.
      * intros Hs [Hv0 Hv1]. apply Qmult_le_0_compat; [exact Hs|].
        assert (Hm : (- variation <= (u * 2 - 1) * variation)%Q) by nra.
        lra.
      * intros Hz. apply num_truthy_false in Hz. congruence.
    + split; [intros Hs _; exact Hs | reflexivity].
  - eapply emits_weaken; [|apply emits_typeHandler].
    intros ev Hev ms ->. simpl in Hev. unfold pacing in Hev.
    fold speed in Hev. fold variation in Hev.
    destruct (num_truthy variation) eqn:Htr.
    + destruct Hev as [n ->]. specialize (Hrand n).
      set (u := Math_random n) in *.
      assert (Hr : (-1 <= u * 2 - 1 < 1)%Q) by (split; lra).
      split; [|split].
      * exists (u * 2 - 1)%Q. split; [exact Hr|]. ring.
      * intros Hs [Hv0 Hv1].
        apply Qmult_le_0_compat; [exact Hs|].
        assert (Hm : (- variation <= (u * 2 - 1) * variation)%Q) by nra.
        lra.
      * intros Hz. apply num_truthy_false in Hz. congruence.
    + subst ms. split; [|split].
      * exists 0%Q. split; [split; lra|]. ring.
      * intros Hs _. exact Hs.
      * reflexivity.
Qed.

End ExactTyping.

Lemma wait_uses_the_variation_unclamped_witness :
  (forall n, 0 <= Math_random (Host := drawHost) n < 1)%Q /\
  (typingVariation (scenario_jitter (1 # 5)) = (1 # 5)%Q /\
   typingVariation (scenario_jitter 2) = 2%Q) /\
  (exists k,
     (k <= 2)%nat /\
     waits (trace (snd (typeHandler (H := drawHost) (JNum 1)
                          (scenario_jitter (1 # 5)) one_line)))
     = waits (trace one_line) ++
       jitteredWaits (H := drawHost) 50 (1 # 5) (draws one_line) k) /\
  jitteredWait (H := drawHost) 50 (1 # 5) 0
  = (50 * (1 + ((1 # 4) * 2 - 1) * (1 # 5)))%Q /\
  Forall2 Qeq
    (waits (trace (snd (typeHandler (H := drawHost) (JNum 1)
                          (scenario_jitter (1 # 5)) one_line))))
    [45; 44]%Q.
Proof.
  assert (Hrand : (forall n, 0 <= Math_random (Host := drawHost) n < 1)%Q).
  { intros n. unfold Qle, Qlt. cbn [Math_random drawHost Buffer.reference Qnum Qden].
    rewrite Zpos_P_of_succ_nat. lia. }
  pose proof (wait_uses_the_variation_unclamped (H := drawHost) (JNum 1)
                (scenario_jitter (1 # 5)) Hrand) as [Hgiven [_ [Hwait [Hrun _]]]].
  split; [exact Hrand|].
  split; [split; reflexivity|].
  split; [exact (Hrun one_line)|].
  split; [exact (proj1 (Hwait 0%nat eq_refl))|].
  vm_compute. repeat constructor.
Defined.

Section AnimatedJob.
Context {E : Type} `{Host E}.

(** One keystroke adds one wait of the job's pacing. *)
Lemma typeChars_step (speed variation : Q) (ch : ascii) (w : World E) :
  exists ms,
    pacing speed variation ms /\
    trace (snd (typeChars speed variation (String ch EmptyString) w))
    = trace w ++ [EvSleep ms; EvCommand "default:type" (typeArgs ch)].
Proof.
  simpl. unfold bind, charDelay, runVSCodeCommand, bind, emit, call, random, ret, pacing.
  destruct (num_truthy variation); simpl;
    destruct (executeCommand "default:type" (typeArgs ch) (host w)) as [[r|err] e];
    simpl; rewrite <- app_assoc; eexists; split; try reflexivity; eauto.
Qed.

Lemma typeChars_waits (speed variation : Q) (text : string) (w w' : World E) :
  typeChars speed variation text w = (Ok tt, w') ->
  exists ws,
    waits (trace w') = waits (trace w) ++ ws /\
    List.length ws = String.length text /\
    Forall (pacing speed variation) ws.
Proof.
  revert w. induction text as [|ch rest IH]; intros w Hrun.
  - simpl in Hrun. injection Hrun as <-. exists []. rewrite app_nil_r. auto.
  - change (String ch rest) with (cat (String ch EmptyString) rest) in Hrun.
    rewrite typeChars_app in Hrun. unfold bind in Hrun.
    destruct (typeChars_step speed variation ch w) as [ms [Hms Hone]].
    destruct (typeChars speed variation (String ch EmptyString) w) as [[[]|err] wa];
      [|discriminate].
    simpl in Hone. destruct (IH wa Hrun) as [ws [Hws [Hlen Hall]]].
    exists (ms :: ws). rewrite Hws, Hone, waits_app. simpl.
    rewrite <- app_assoc. simpl. repeat split; auto.
Qed.

(** The run of a job all of whose stages succeed. *)
Lemma animated_run (id : JSON) (params : Params) (text : string)
    (w w1 w2 w3 : World E) :
  p_text params = Some text -> text <> EmptyString ->
  activeTextEditor (host w) = true -> is_true (p_quick params) = false ->
  typePrologue params w = (Ok tt, w1) ->
  typeChars (typingSpeed params text) (typingVariation params) text w1 = (Ok tt, w2) ->
  placeAfterCursor params w2 = (Ok tt, w3) ->
  typeHandler id params w
  = sendResponse id
      (JStr (cat "Typed " (cat (decimal (String.length text)) " characters"))) w3.
Proof.
  intros Ht Hne Hed Hq Hpro Hrun Hafter.
  rewrite (typeHandler_run id params text w Ht Hne Hed).
  unfold try_catch. rewrite (bind_ok _ _ _ _ _ Hpro).
  unfold typeInsertion. rewrite Hq.
  rewrite (bind_ok _ _ _ _ _ Hrun), (bind_ok _ _ _ _ _ Hafter).
  destruct id; reflexivity.
Qed.

Lemma placeAfterCursor_trace (params : Params) (w2 w3 : World E) :
  placeAfterCursor params w2 = (Ok tt, w3) ->
  trace w3 = trace w2 ++ afterSelection params.
Proof.
  unfold placeAfterCursor, afterSelection.
  destruct (p_afterCursor params) as [rp|].
  - unfold bind, newPosition.
    destruct (Z.ltb (int_or_0 (raw_line rp)) 0); [discriminate|].
    destruct (Z.ltb (int_or_0 (raw_character rp)) 0); [discriminate|].
    unfold ret. rewrite setSelection_run. intros Hrun. injection Hrun as <-.
    reflexivity.
  - intros Hrun. injection Hrun as <-. rewrite app_nil_r. reflexivity.
Qed.

(** X7. An animated job whose keystrokes are all accepted does, after the
    positioning of its prologue, exactly this: for each character of the
    text in order (one character of the model being one UTF-16 unit, so
    for a text of the Basic Multilingual Plane), one wait of
    [speed * (1 + r * variation)] computed from the next draw and then one
    [default:type] command carrying that character alone; then the
    selection asked for by [afterCursor], if any; then the answer
    "Typed <text.length> characters". So the characters reach the editor
    one by one, in order, without gap or repetition, each after its own
    wait. *)
Theorem animated_job_types_the_text_in_order (id : JSON) (params : Params)
    (text : string) (w w1 w2 w3 : World E) :
  p_text params = Some text -> text <> EmptyString ->
  activeTextEditor (host w) = true -> is_true (p_quick params) = false ->
  typePrologue params w = (Ok tt, w1) ->
  typeChars (typingSpeed params text) (typingVariation params) text w1 = (Ok tt, w2) ->
  placeAfterCursor params w2 = (Ok tt, w3) ->
  let final := snd (typeHandler id params w) in
  (exists pre,
     Forall positioning pre /\
     trace final
     = trace w ++ pre ++
       keystrokes
         (jitteredWaits (typingSpeed params text) (typingVariation params)
            (draws w) (String.length text))
         text ++
       afterSelection params ++
       match id with
       | JNull => []
       | _ => [EvSend
                 (Result id
                    (JStr (cat "Typed "
                             (cat (decimal (String.length text)) " characters"))))]
       end) /\
  typed (trace final) = cat (typed (trace w)) text /\
  List.length (waits (trace final))
    = (List.length (waits (trace w)) + String.length text)%nat /\
  sent (trace final)
    = sent (trace w) ++
      match id with
      | JNull => []
      | _ => [Result id
                (JStr (cat "Typed " (cat (decimal (String.length text)) " characters")))]
      end.
Proof.
  intros Ht Hne Hed Hq Hpro Hrun Hafter. cbv zeta.
  rewrite (animated_run id params text w w1 w2 w3 Ht Hne Hed Hq Hpro Hrun Hafter).
  destruct (typeChars_typed _ _ _ _ _ Hrun) as [Htyped Hsent].
  destruct (typeChars_waits _ _ _ _ _ Hrun) as [ws [Hws [Hlen _]]].
  pose proof (emits_typePrologue params w) as [pre [Hpre Hprep]].
  rewrite Hpro in Hpre. simpl in Hpre.
  pose proof (emits_positioning_placeAfterCursor params w2) as [post [Hpost Hpostp]].
  rewrite Hafter in Hpost. simpl in Hpost.
  split.
  { exists pre. split; [exact Hprep|].
    pose proof (keeps_draws_typePrologue params w) as Hd.
    rewrite Hpro in Hd. cbn [snd] in Hd.
    destruct (typeChars_exact (typingSpeed params text) (typingVariation params)
                text w1) as [k [_ [Htr Hk]]].
    rewrite Hrun in Htr, Hk. cbn [snd fst] in Htr, Hk.
    rewrite (Hk tt eq_refl), Hd, Hpre in Htr.
    pose proof (placeAfterCursor_trace params w2 w3 Hafter) as Hsel.
    rewrite Htr in Hsel.
    destruct id; cbn [sendResponse ret emit snd trace]; rewrite Hsel;
      rewrite <- ?app_assoc, ?app_nil_r; reflexivity. }
  assert (Hquiet : forall evs, Forall positioning evs ->
            typed evs = EmptyString /\ waits evs = [] /\ sent evs = []).
  { intros evs Hall. induction Hall as [|ev evs Hev _ IH]; [auto|].
    destruct ev; simpl in *; try contradiction; exact IH. }
  destruct (Hquiet pre Hprep) as [Hp1 [Hp2 Hp3]].
  destruct (Hquiet post Hpostp) as [Hq1 [Hq2 Hq3]].
  assert (Hw3 : typed (trace w3) = cat (typed (trace w)) text /\
                waits (trace w3) = waits (trace w) ++ ws /\
                sent (trace w3) = sent (trace w)).
  { rewrite Hpost, typed_app, waits_app, sent_app, Hq1, Hq2, Hq3, cat_empty_r,
      !app_nil_r, Htyped, Hws, Hsent.
    rewrite Hpre, typed_app, waits_app, sent_app, Hp1, Hp2, Hp3, cat_empty_r,
      !app_nil_r. auto. }
  destruct Hw3 as [H1 [H2 H3]].
  destruct id; simpl; rewrite ?typed_app, ?waits_app, ?sent_app; simpl;
    rewrite ?cat_empty_r, ?app_nil_r, ?H1, ?H2, ?H3, ?length_app, ?Hlen; auto.
Qed.

(** X9. Append mode discards any earlier positioning: once the prologue
    of an append job is over, the cursor is an empty selection at the end
    of the last line of the document (on a host where setting the
    selection stores it and leaves the text alone). *)
Theorem append_mode_moves_to_the_end (params : Params) (w w1 : World E) :
  (forall s e, selection (set_selection s e) = s) ->
  (forall s e, doc_lines (set_selection s e) = doc_lines e) ->
  typingMode params = "append" ->
  typePrologue params w = (Ok tt, w1) ->
  let ls := doc_lines (host w1) in
  selection (host w1)
  = cursor {| line := Z.of_nat (List.length ls) - 1;
              character := text_length (last ls EmptyString) |}.
Proof.
  intros Hstore Hkeep Hmode Hpro. cbv zeta.
  unfold typePrologue in Hpro. rewrite Hmode in Hpro. simpl String.eqb in Hpro.
  cbv iota in Hpro. unfold bind at 1 in Hpro.
  destruct (prePosition params w) as [[[]|err] wa]; [|discriminate].
  unfold bind at 1 in Hpro.
  destruct (replacePreClear "append" wa) as [[[]|err] wb]; [|discriminate].
  unfold moveToEnd, bind at 1, lineCount, gets in Hpro. cbv beta iota in Hpro.
  unfold bind at 1, lineAt in Hpro.
  destruct (Z.ltb_spec (Z.of_nat (List.length (doc_lines (host wb))) - 1) 0)
    as [Hneg|Hnn]; [discriminate|].
  destruct (nth_error (doc_lines (host wb))
              (Z.to_nat (Z.of_nat (List.length (doc_lines (host wb))) - 1)))
    as [t|] eqn:Hnth; [|discriminate].
  rewrite (bind_ok _ _ _ _ _
             (newPosition_ok _ _ wb Hnn (text_length_nonneg t))) in Hpro.
  rewrite setSelection_run in Hpro. injection Hpro as <-. simpl host.
  rewrite Hstore, Hkeep.
  replace (Z.to_nat (Z.of_nat (List.length (doc_lines (host wb))) - 1))
    with (List.length (doc_lines (host wb)) - 1)%nat in Hnth by lia.
  rewrite (nth_error_last _ t EmptyString Hnth). reflexivity.
Qed.

End AnimatedJob.

(** ** Start-up and admission *)

Lemma hexDigit_is_hex (n : N) : isHexDigit (hexDigit n) = true.
Proof.
  unfold hexDigit.
  repeat (match goal with
          | |- context [match ?x with _ => _ end] => destruct x
          end); reflexivity.
Qed.

Lemma toString_hex_length (bytes : list byte) :
  String.length (toString_hex bytes) = (2 * List.length bytes)%nat.
Proof. induction bytes as [|b rest IH]; simpl; [reflexivity | rewrite IH; lia]. Qed.

Lemma toString_hex_digits (bytes : list byte) :
  string_forallb isHexDigit (toString_hex bytes) = true.
Proof.
  induction bytes as [|b rest IH]; [reflexivity|].
  cbn [toString_hex string_forallb]. rewrite !hexDigit_is_hex, IH. reflexivity.
Qed.

(** X10. A generated token is the hexadecimal rendering of the random
    bytes: twice as many characters as bytes, all of them lowercase
    hexadecimal digits; for the 32 bytes asked at start-up, 64 digits. *)
Theorem generated_token_is_hex (randomBytes : nat -> list byte) (n : nat) :
  List.length (randomBytes n) = n ->
  String.length (generateSecureToken randomBytes n) = (2 * n)%nat /\
  string_forallb isHexDigit (generateSecureToken randomBytes n) = true.
Proof.
  intros Hn. unfold generateSecureToken. split.
  - rewrite toString_hex_length, Hn. reflexivity.
  - apply toString_hex_digits.
Qed.

Lemma generated_token_truthy (randomBytes : nat -> list byte) :
  List.length (randomBytes 32%nat) = 32%nat ->
  str_truthy (generateSecureToken randomBytes 32) = true.
Proof.
  intros Hn. pose proof (toString_hex_length (randomBytes 32%nat)) as Hl.
  unfold generateSecureToken. rewrite Hn in Hl.
  destruct (toString_hex (randomBytes 32%nat)); [discriminate | reflexivity].
Qed.

(** X11. The server fails closed exactly when it is misconfigured: with
    the token set up at start, a connection is refused with "Authentication
    token not configured on server" if and only if authentication is
    enabled, no token is configured and generation is off; with
    authentication disabled every connection is accepted. *)
Theorem not_configured_iff_misconfigured (randomBytes : nat -> list byte)
    (cfg : AuthSettings) (req : UpgradeRequest) :
  List.length (randomBytes 32%nat) = 32%nat ->
  let authToken := fst (processAuthSettings randomBytes cfg) in
  (connectionVerdict (auth_enabled cfg) authToken req
     = Rejected 401 "Authentication token not configured on server"
   <-> auth_enabled cfg = true /\ auth_token cfg = EmptyString /\
       auth_generateRandomToken cfg = false) /\
  (auth_enabled cfg = false ->
   connectionVerdict (auth_enabled cfg) authToken req = Accepted).
Proof.
  intros Hn. cbv zeta. unfold processAuthSettings, connectionVerdict, verifyClient.
  destruct (auth_enabled cfg); [|split; [split; [discriminate | intros [? _]; discriminate] | reflexivity]].
  split; [|discriminate].
  destruct (auth_token cfg) as [|c t] eqn:Htok.
  - destruct (auth_generateRandomToken cfg); cbn [str_truthy fst opt_truthy].
    + rewrite (generated_token_truthy randomBytes Hn). cbn [negb andb].
      split; [|intros [_ [_ Hc]]; discriminate].
      destruct (_ || _); discriminate.
    + cbn [negb andb]. split; auto.
  - cbn [str_truthy fst opt_truthy negb andb].
    split; [|intros [_ [Hc _]]; discriminate].
    destruct (_ || _); discriminate.
Qed.

(** X12. The two ways to present the token: a request whose authorization
    header is "Bearer " followed by the secret is accepted whatever its
    query token, and a request whose query token is the secret is accepted
    whatever its header. *)
Theorem bearer_header_or_query_token_admits (secret : string)
    (other : option string) :
  secret <> EmptyString ->
  connectionVerdict true (Some secret)
    {| query_token := other; authorization := Some (cat "Bearer " secret) |}
  = Accepted /\
  connectionVerdict true (Some secret)
    {| query_token := Some secret; authorization := other |}
  = Accepted.
Proof.
  intros Hne. unfold connectionVerdict, verifyClient. cbn [opt_truthy].
  rewrite (str_truthy_nonempty secret Hne). cbn [negb andb query_token].
  split.
  - assert (Hh : headerToken {| query_token := other;
                                authorization := Some (cat "Bearer " secret) |}
                 = Some secret).
    { unfold headerToken. cbn. destruct secret; reflexivity. }
    rewrite Hh. rewrite (proj2 (same_token_iff (Some secret) secret Hne) eq_refl).
    rewrite orb_true_r. reflexivity.
  - rewrite (proj2 (same_token_iff (Some secret) secret Hne) eq_refl). reflexivity.
Qed.

(** ** The server's life cycle *)

(** X13. While connections come and go, [clientCount] is the number of
    connections opened minus the number closed, and as long as no close
    comes without its connection the status bar shows that number:
    "MCP: On (n)" for n > 0 and "MCP: On" for 0. *)
Theorem clientCount_follows_the_connections (evs : list SocketEvent) (s : ServerState) :
  statusBar s = shown (clientCount s) ->
  (forall k, 0 <= clientCount s + balance (firstn k evs)) ->
  let s' := fold_left socketStep evs s in
  clientCount s' = clientCount s + balance evs /\
  statusBar s' = shown (clientCount s') /\
  wss s' = wss s.
Proof.
  revert s. induction evs as [|ev evs IH]; intros s Htext Hbal; cbv zeta.
  - simpl. rewrite Z.add_0_r. auto.
  - simpl fold_left.
    assert (Hstep : clientCount (socketStep s ev) = clientCount s + balance [ev] /\
                    statusBar (socketStep s ev) = shown (clientCount (socketStep s ev)) /\
                    wss (socketStep s ev) = wss s).
    { pose proof (Hbal 1%nat) as H1. pose proof (Hbal 0%nat) as H0.
      destruct ev; simpl in *; unfold shown.
      - split; [lia | split; [|reflexivity]].
        destruct (Z.ltb_spec 0 (clientCount s + 1)); [reflexivity | lia].
      - split; [lia | split; reflexivity]. }
    destruct Hstep as [Hc [Ht Hw]].
    destruct (IH (socketStep s ev) Ht) as [Hc' [Ht' Hw']].
    { intros k. specialize (Hbal (S k)). cbn [firstn] in Hbal.
      rewrite Hc. destruct ev; cbn [balance] in Hbal |- *; lia. }
    split; [rewrite Hc', Hc; destruct ev; cbn [balance]; lia|].
    split; [exact Ht' | rewrite Hw'; exact Hw].
Qed.

Lemma clientCount_follows_the_connections_witness :
  statusBar (toggle (Ok tt) activated) = shown (clientCount (toggle (Ok tt) activated)) /\
  clientCount (fold_left socketStep [Connection; Connection; SocketClose]
                 (toggle (Ok tt) activated)) = 1 /\
  statusBar (fold_left socketStep [Connection; Connection; SocketClose]
               (toggle (Ok tt) activated)) = "$(debug-connect) MCP: On (1)".
Proof.
  assert (Ht : statusBar (toggle (Ok tt) activated)
               = shown (clientCount (toggle (Ok tt) activated))) by reflexivity.
  split; [exact Ht|].
  destruct (clientCount_follows_the_connections
              [Connection; Connection; SocketClose] (toggle (Ok tt) activated) Ht)
    as [Hc [Hs _]].
  - intros [|[|[|k]]]; cbn [firstn]; rewrite ?firstn_nil; vm_compute; discriminate.
  - split; [exact Hc | exact Hs].
Defined.

(** X14. After the toggle command the status bar shows whether the
    variable [wss] holds a server object: "MCP: On" when it does,
    "MCP: Off" when it does not.  [wss] holds one afterwards exactly when
    it held none before and the constructor call [new WebSocket.Server]
    returned instead of throwing.  Whether that server listens is not
    part of the state: the command neither waits for [listening] nor
    hears [error], so the text says "On" as soon as the object exists.
    A toggle that changes [wss] leaves the client count at 0. *)
Theorem toggle_shows_the_state (constructed : outcome unit) (s : ServerState) :
  let s' := toggle constructed s in
  statusBar s' = (if wss s' then text_on else text_off) /\
  (wss s' = true <-> wss s = false /\ exists u, constructed = Ok u) /\
  (wss s' <> wss s -> clientCount s' = 0).
Proof.
  cbv zeta. destruct s as [[|] c t]; destruct constructed as [[]|err]; cbn;
    (split; [reflexivity|]; split;
     [ split;
       [ intros Ht; try discriminate; split; eauto
       | intros [Hc [u Hu]]; congruence ]
     | intros Hd; try reflexivity; congruence ]).
Qed.

(** X15. The close listener of a socket does not look at [wss]: when a
    client disconnects after the toggle command has stopped the server,
    the counter goes to -1 and the status bar is set to "MCP: On" although
    the server is off. *)
Theorem close_after_stop_shows_on (listen : outcome unit) (s : ServerState) :
  wss s = true ->
  let s' := onSocketClose (toggle listen s) in
  wss s' = false /\ clientCount s' = -1 /\ statusBar s' = text_on.
Proof.
  intros Hw. cbv zeta. destruct s as [[|] c t]; [|discriminate].
  cbn. auto.
Qed.

Lemma close_after_stop_shows_on_witness :
  wss (onConnection (toggle (Ok tt) activated)) = true /\
  statusBar (onSocketClose (toggle (Ok tt) (onConnection (toggle (Ok tt) activated))))
  = "$(debug-connect) MCP: On".
Proof.
  assert (Hw : wss (onConnection (toggle (Ok tt) activated)) = true) by reflexivity.
  split; [exact Hw|].
  exact (proj2 (proj2 (close_after_stop_shows_on (Ok tt)
                         (onConnection (toggle (Ok tt) activated)) Hw))).
Defined.

(** ** The example client *)

Lemma key_is_num (k k' : Z) : key_is (JNum (inject_Z k)) k' = Z.eqb k k'.
Proof.
  simpl. destruct (Z.eqb_spec k k') as [->|Hne].
  - apply Qeq_bool_iff. reflexivity.
  - destruct (Qeq_bool (inject_Z k) (inject_Z k')) eqn:Hq; [|reflexivity].
    apply Qeq_bool_iff in Hq. unfold Qeq in Hq. simpl in Hq. lia.
Qed.

Lemma Map_set_fresh (k : Z) (v : string) (m : PendingMap) :
  ~ In k (map fst m) -> Map_set k v m = m ++ [(k, v)].
Proof.
  induction m as [|[k' v'] m IH]; intros Hnot; [reflexivity|].
  simpl in *. destruct (Z.eqb_spec k k') as [->|Hne]; [tauto|].
  rewrite IH by tauto. reflexivity.
Qed.

Lemma Map_get_fresh (k : Z) (v : string) (m : PendingMap) :
  ~ In k (map fst m) -> Map_get (JNum (inject_Z k)) (m ++ [(k, v)]) = Some (k, v).
Proof.
  unfold Map_get. induction m as [|[k' v'] m IH]; intros Hnot.
  - cbn [app find fst]. rewrite key_is_num, Z.eqb_refl. reflexivity.
  - cbn [app find fst map In] in *. rewrite key_is_num.
    destruct (Z.eqb_spec k k') as [->|Hne]; [tauto|]. apply IH. tauto.
Qed.

Lemma Map_delete_fresh (k : Z) (v : string) (m : PendingMap) :
  ~ In k (map fst m) -> Map_delete (JNum (inject_Z k)) (m ++ [(k, v)]) = m.
Proof.
  unfold Map_delete. induction m as [|[k' v'] m IH]; intros Hnot.
  - cbn [app filter fst]. rewrite key_is_num, Z.eqb_refl. reflexivity.
  - cbn [app filter fst map In] in *. rewrite key_is_num.
    destruct (Z.eqb_spec k k') as [->|Hne]; [tauto|]. cbn [negb].
    rewrite IH by tauto. reflexivity.
Qed.

Lemma Map_get_deleted (id : JSON) (m : PendingMap) :
  Map_get id (Map_delete id m) = None.
Proof.
  unfold Map_get, Map_delete. induction m as [|e m IH]; [reflexivity|].
  simpl. destruct (key_is id (fst e)) eqn:Hk; simpl; [exact IH|].
  rewrite Hk. exact IH.
Qed.

Lemma filter_keys_incl (f : Z * string -> bool) (m : PendingMap) (k : Z) :
  In k (map fst (filter f m)) -> In k (map fst m).
Proof.
  induction m as [|e m IH]; simpl; [auto|].
  destruct (f e); simpl; tauto.
Qed.

Lemma filter_keys_NoDup (f : Z * string -> bool) (m : PendingMap) :
  NoDup (map fst m) -> NoDup (map fst (filter f m)).
Proof.
  induction m as [|e m IH]; simpl; intros Hnd; [constructor|].
  inversion Hnd as [|? ? Hnot Hrest]; subst.
  destruct (f e); simpl; [|auto].
  constructor; [|auto]. intros Hin. apply Hnot. eapply filter_keys_incl, Hin.
Qed.

Lemma fresh_key (c : Client) : client_ok c -> ~ In (nextId c) (map fst (pendingRequests c)).
Proof. intros [_ [_ Hb]] Hin. specialize (Hb _ Hin). lia. Qed.

Lemma sendCommand_ok action params description (c : Client) :
  client_ok c -> client_ok (sendCommand action params description c).
Proof.
  intros Hok. pose proof (fresh_key c Hok) as Hfresh.
  destruct Hok as [H1 [Hnd Hb]]. unfold client_ok, sendCommand. simpl.
  rewrite (Map_set_fresh _ _ _ Hfresh), map_app. simpl.
  split; [lia|]. split.
  - apply NoDup_app; [exact Hnd | repeat constructor; simpl; tauto |].
    intros k Hin [<-|[]]. exact (Hfresh Hin).
  - intros k Hin. apply in_app_or in Hin. destruct Hin as [Hin|[<-|[]]].
    + specialize (Hb k Hin). lia.
    + lia.
Qed.

Lemma clientOnMessage_ok data (c : Client) :
  client_ok c -> client_ok (clientOnMessage data c) /\
  nextId (clientOnMessage data c) = nextId c /\
  outgoing (clientOnMessage data c) = outgoing c.
Proof.
  intros Hok. unfold clientOnMessage.
  destruct data as [r|]; [|auto].
  destruct (response_id r) as [id|]; [|auto].
  destruct (truthy id && Map_has id (pendingRequests c)); [|auto].
  destruct (Map_get id (pendingRequests c)) as [[k v]|]; [|auto].
  simpl. split; [|auto]. destruct Hok as [H1 [Hnd Hb]].
  split; [exact H1|]. split.
  - apply filter_keys_NoDup, Hnd.
  - intros k' Hin. apply Hb. eapply filter_keys_incl, Hin.
Qed.

(** The bookkeeping after some steps, [n] of them sends. *)
Lemma client_steps (steps : list ClientStep) (c : Client) (n : nat) :
  client_ok c -> nextId c = 1 + Z.of_nat n ->
  map c_id (outgoing c) = map Z.of_nat (seq 1 n) ->
  let c' := fold_left clientStep steps c in
  client_ok c' /\ nextId c' = 1 + Z.of_nat (n + sends steps) /\
  map c_id (outgoing c') = map Z.of_nat (seq 1 (n + sends steps)).
Proof.
  revert c n. induction steps as [|st steps IH]; intros c n Hok Hn Hout; cbv zeta.
  - simpl. unfold sends. simpl. rewrite Nat.add_0_r. auto.
  - simpl fold_left. destruct st as [action params description|data].
    + replace (n + sends (Send action params description :: steps))%nat
        with (S n + sends steps)%nat by (unfold sends; simpl; lia).
      apply IH.
      * cbn [clientStep]. apply sendCommand_ok, Hok.
      * cbn [clientStep sendCommand nextId]. rewrite Hn. lia.
      * cbn [clientStep sendCommand outgoing]. rewrite map_app, Hout, seq_S, map_app.
        cbn [map c_id]. rewrite Hn. do 2 f_equal. lia.
    + replace (n + sends (Receive data :: steps))%nat with (n + sends steps)%nat
        by (unfold sends; simpl; lia).
      destruct (clientOnMessage_ok data c Hok) as [Hok' [Hn' Hout']].
      apply IH; simpl; [exact Hok' | rewrite Hn'; exact Hn | rewrite Hout'; exact Hout].
Qed.

(** X16. Whatever the client sends and receives, in any order, the ids
    of its commands are 1, 2, 3, ... in the order of sending, never reused,
    and the pending requests have distinct ids, all of them already given
    out. *)
Theorem client_ids_count_up (steps : list ClientStep) :
  let c := fold_left clientStep steps newClient in
  map c_id (outgoing c) = map Z.of_nat (seq 1 (sends steps)) /\
  nextId c = 1 + Z.of_nat (sends steps) /\
  client_ok c.
Proof.
  cbv zeta.
  destruct (client_steps steps newClient 0) as [Hok [Hn Hout]].
  - unfold client_ok, newClient. simpl. split; [lia|]. split; [constructor | tauto].
  - reflexivity.
  - reflexivity.
  - simpl in *. auto.
Qed.

Section Correlation.
Context {E : Type} `{Host E}.

(** X17. Request and response meet: when the client sends a command, the
    server handles its frame, and the client receives what the server
    wrote, then exactly the promise of that command is settled, once, and
    the pending requests are what they were before the command. *)
Theorem command_is_settled_once (action : string) (params : Params)
    (description : string) (c : Client) (w : World E) (l : list Outbound) :
  client_ok c ->
  let cmd := {| c_id := nextId c; c_action := action; c_params := params |} in
  let c1 := sendCommand action params description c in
  sent (trace (snd (onMessage (Some (encodeCommand cmd)) w))) = sent (trace w) ++ l ->
  let c2 := fold_left (fun c' r => clientOnMessage (Some r) c') l c1 in
  outgoing c1 = outgoing c ++ [cmd] /\
  pendingRequests c2 = pendingRequests c /\
  exists s, settled c2 = settled c ++ [s] /\ settled_id s = nextId c.
Proof.
  intros Hok. cbv zeta. intros Hsent.
  pose proof (fresh_key c Hok) as Hfresh. destruct Hok as [H1 _].
  destruct (onMessage_answers
              (encodeCommand {| c_id := nextId c; c_action := action;
                                c_params := params |}) w) as [l' [Hs Ha]].
  rewrite Hs in Hsent. apply app_inv_head in Hsent. subst l'.
  assert (Hid : or_null (m_id (encodeCommand
                  {| c_id := nextId c; c_action := action; c_params := params |}))
                = JNum (inject_Z (nextId c))).
  { simpl. unfold num_truthy.
    destruct (Qeq_bool (inject_Z (nextId c)) 0) eqn:Hq; [|reflexivity].
    apply Qeq_bool_iff in Hq. unfold Qeq in Hq. simpl in Hq. lia. }
  rewrite Hid in Ha.
  assert (Htruthy : truthy (JNum (inject_Z (nextId c))) = true).
  { simpl. unfold num_truthy.
    destruct (Qeq_bool (inject_Z (nextId c)) 0) eqn:Hq; [|reflexivity].
    apply Qeq_bool_iff in Hq. unfold Qeq in Hq. simpl in Hq. lia. }
  split; [reflexivity|].
  assert (Hone : forall r, response_id r = Some (JNum (inject_Z (nextId c))) ->
            pendingRequests (clientOnMessage (Some r)
               (sendCommand action params description c)) = pendingRequests c /\
            exists s, settled (clientOnMessage (Some r)
               (sendCommand action params description c)) = settled c ++ [s] /\
               settled_id s = nextId c).
  { intros r Hr. unfold clientOnMessage. rewrite Hr, Htruthy.
    unfold Map_has. cbn [sendCommand pendingRequests].
    rewrite (Map_set_fresh _ _ _ Hfresh), (Map_get_fresh _ _ _ Hfresh).
    cbn [andb pendingRequests settled].
    rewrite (Map_delete_fresh _ _ _ Hfresh). split; [reflexivity|].
    destruct r as [i res|i e|e]; [| destruct (str_truthy e) | destruct (str_truthy e)];
      eexists; split; reflexivity. }
  destruct l as [|[i r|i e|e] [|? ?]]; simpl in Ha; try contradiction.
  - discriminate.
  - destruct Ha as [-> _]. apply Hone. reflexivity.
  - subst i. apply Hone. reflexivity.
Qed.

End Correlation.

Lemma idle_response (r : Outbound) (c : Client) :
  match response_id r with
  | Some id => truthy id = false \/ Map_has id (pendingRequests c) = false
  | None => True
  end ->
  clientOnMessage (Some r) c = c.
Proof.
  unfold clientOnMessage. destruct (response_id r) as [id|]; [|reflexivity].
  intros [Hf|Hf]; rewrite Hf; rewrite ?andb_false_r; reflexivity.
Qed.

(** X18. The client acts on a response only when its id is truthy and
    pending: the bare "Invalid JSON message" error, an error sent for a
    request without id, and a response whose id is not pending leave the
    client as it is; and a response that arrives twice settles nothing the
    second time. *)
Theorem stray_and_repeated_responses_change_nothing (r : Outbound) (c : Client) :
  (forall e, clientOnMessage (Some (BareError e)) c = c) /\
  (forall e, clientOnMessage (Some (Error JNull e)) c = c) /\
  (forall id, response_id r = Some id -> Map_has id (pendingRequests c) = false ->
     clientOnMessage (Some r) c = c) /\
  clientOnMessage (Some r) (clientOnMessage (Some r) c) = clientOnMessage (Some r) c.
Proof.
  split; [reflexivity|]. split; [reflexivity|]. split.
  - intros id Hid Hhas. apply idle_response. rewrite Hid. auto.
  - unfold clientOnMessage at 2 3.
    destruct (response_id r) as [id|] eqn:Hid; [|apply idle_response; rewrite Hid; exact I].
    destruct (truthy id && Map_has id (pendingRequests c)) eqn:Hc;
      [| apply idle_response; rewrite Hid; apply andb_false_iff in Hc; exact Hc].
    destruct (Map_get id (pendingRequests c)) as [[k v]|] eqn:Hg;
      [| apply idle_response; rewrite Hid; right; unfold Map_has; rewrite Hg;
         reflexivity].
    apply idle_response. rewrite Hid. right. unfold Map_has. cbn [pendingRequests].
    rewrite Map_get_deleted. reflexivity.
Qed.

(** ** The token on the command line *)

Lemma split_on_clean (sep : ascii) (a : string) :
  has_char sep a = false -> split_on sep a = [a].
Proof.
  induction a as [|x a IH]; [reflexivity|].
  simpl. intros Hno. apply orb_false_iff in Hno. destruct Hno as [Hx Ha].
  rewrite Hx, (IH Ha). reflexivity.
Qed.

Lemma split_on_first (sep : ascii) (a b : string) :
  has_char sep a = false ->
  split_on sep (cat a (String sep b)) = a :: split_on sep b.
Proof.
  induction a as [|x a IH]; intros Hno.
  - simpl. rewrite Ascii.eqb_refl. reflexivity.
  - simpl in *. apply orb_false_iff in Hno. destruct Hno as [Hx Ha].
    rewrite Hx, (IH Ha). reflexivity.
Qed.

Lemma find_skips (f : string -> bool) (pre rest : list string) (x : string) :
  forallb (fun a => negb (f a)) pre = true -> f x = true ->
  find f (pre ++ x :: rest) = Some x.
Proof.
  induction pre as [|a pre IH]; simpl; intros Hpre Hx.
  - rewrite Hx. reflexivity.
  - apply andb_true_iff in Hpre. destruct Hpre as [Ha Hpre].
    apply negb_true_iff in Ha. rewrite Ha. apply IH; assumption.
Qed.

(** X19. The client takes its token from the first argument that starts
    with [--token=] and keeps what stands between its first "=" and the
    next one: a token without "=" is read whole, a token that contains "="
    (the padding of a base64 token, say) is cut at it; later arguments are
    not looked at. *)
Theorem token_argument_is_cut_at_equals (a b : string) (pre rest : list string) :
  forallb (fun arg => negb (is_token_arg arg)) pre = true ->
  has_char "="%char a = false ->
  parseTokenArg (pre ++ cat "--token=" a :: rest) = Some a /\
  parseTokenArg (pre ++ cat "--token=" (cat a (String "="%char b)) :: rest) = Some a.
Proof.
  intros Hpre Hno.
  assert (Hprefix : forall t, is_token_arg (cat "--token=" t) = true).
  { intros t. unfold is_token_arg. cbn. destruct t; reflexivity. }
  assert (Hsplit : forall t, split_on "="%char (cat "--token=" t)
                             = "--token" :: split_on "="%char t) by reflexivity.
  unfold parseTokenArg. fold is_token_arg.
  rewrite !(find_skips is_token_arg pre rest _ Hpre (Hprefix _)), !Hsplit.
  rewrite (split_on_clean _ a Hno), (split_on_first _ a b Hno).
  split; reflexivity.
Qed.

(** ** The further properties on the reference host *)

Lemma unroutable_requests_only_get_an_error_witness :
  opt_truthy (actionOf namelessRequest) = false /\
  ~ In "explode" known_actions /\
  sent (trace (snd (onMessage (Some namelessRequest) two_lines)))
  = [Error (JNum 1)
       (cat "Missing required " (cat (quoted "action")
          (cat " or " (cat (quoted "method") " field"))))] /\
  sent (trace (snd (onMessage (Some strangeRequest) two_lines)))
  = [Error (JNum 1) "Unknown action: explode"].
Proof.
  assert (Hf : opt_truthy (actionOf namelessRequest) = false) by reflexivity.
  assert (Hnot : ~ In "explode" known_actions).
  { simpl. intros Hin. repeat (destruct Hin as [Hin|Hin]; [discriminate|]). exact Hin. }
  assert (Hne : "explode" <> EmptyString) by discriminate.
  split; [exact Hf|]. split; [exact Hnot|]. split.
  - rewrite (proj1 (unroutable_requests_only_get_an_error (H := quietHost)
                      namelessRequest two_lines) Hf). reflexivity.
  - rewrite (proj2 (unroutable_requests_only_get_an_error (H := quietHost)
                      strangeRequest two_lines) "explode" eq_refl Hne Hnot).
    reflexivity.
Defined.

Lemma createFile_never_overwrites_witness :
  fs_stat "/tmp/a.txt" (host with_file) = true /\
  onMessage (Some (createRequest (JNum 2) "/tmp/a.txt" "new")) with_file
  = (Ok tt,
     {| host := host with_file;
        trace := [EvSend (Error (JNum 2) "File already exists: /tmp/a.txt")];
        draws := O |}).
Proof.
  assert (Hex : fs_stat "/tmp/a.txt" (host with_file) = true) by reflexivity.
  assert (Hne : "/tmp/a.txt" <> EmptyString) by discriminate.
  split; [exact Hex|].
  exact (createFile_never_overwrites (H := quietHost)
           (createRequest (JNum 2) "/tmp/a.txt" "new") "/tmp/a.txt" with_file
           eq_refl eq_refl Hne Hex).
Defined.

Lemma createFile_then_getFileContent_witness :
  fs_stat "/tmp/a.txt" (host two_lines) = false /\
  trace (snd (onMessage (Some (readRequest (JNum 3) "/tmp/a.txt"))
           (snd (onMessage (Some (createRequest (JNum 2) "/tmp/a.txt" "hi")) two_lines))))
  = [EvSend (Result (JNum 2) (JStr "Created file: /tmp/a.txt"));
     EvSend (Result (JNum 3) (JObj [("path", JStr "/tmp/a.txt"); ("content", JStr "hi")]))].
Proof.
  assert (Hstat : fs_stat "/tmp/a.txt" (host two_lines) = false) by reflexivity.
  assert (Hne : "/tmp/a.txt" <> EmptyString) by discriminate.
  split; [exact Hstat|].
  pose (e1 := snd (fs_writeFile "/tmp/a.txt" (Buffer_from "hi") (host two_lines))).
  pose (e2 := snd (openAndShow "/tmp/a.txt" e1)).
  exact (proj2 (createFile_then_getFileContent (H := quietHost)
                  (JNum 2) (JNum 3) "/tmp/a.txt" "hi" two_lines e1 e2
                  eq_refl eq_refl Hne Hstat eq_refl eq_refl eq_refl eq_refl)).
Defined.

Lemma animated_job_types_the_text_in_order_witness :
  (exists pre,
     Forall positioning pre /\
     trace drawn_run
     = trace two_lines ++ pre ++
       keystrokes (jitteredWaits (H := drawHost) 50 (1 # 5) 0 2) "hi" ++
       [] ++
       [EvSend (Result (JNum 1) (JStr "Typed 2 characters"))]) /\
  typed (trace drawn_run) = "hi" /\
  List.length (waits (trace drawn_run)) = 2%nat /\
  sent (trace drawn_run) = [Result (JNum 1) (JStr "Typed 2 characters")] /\
  trace drawn_run
  = [EvSleep (jitteredWait (H := drawHost) 50 (1 # 5) 0);
     EvCommand "default:type" [JObj [("text", JStr "h")]];
     EvSleep (jitteredWait (H := drawHost) 50 (1 # 5) 1);
     EvCommand "default:type" [JObj [("text", JStr "i")]];
     EvSend (Result (JNum 1) (JStr "Typed 2 characters"))] /\
  Forall2 Qeq (waits (trace drawn_run)) [45; 44]%Q.
Proof.
  pose (params := scenario_jitter (1 # 5)).
  pose (w1 := snd (typePrologue (H := drawHost) params two_lines)).
  pose (w2 := snd (typeChars (H := drawHost) (typingSpeed (H := drawHost) params "hi")
                     (typingVariation params) "hi" w1)).
  pose (w3 := snd (placeAfterCursor params w2)).
  assert (Hne : "hi" <> EmptyString) by discriminate.
  pose proof (animated_job_types_the_text_in_order (H := drawHost) (JNum 1) params "hi"
                two_lines w1 w2 w3 eq_refl Hne eq_refl eq_refl eq_refl eq_refl eq_refl)
    as [Htrace [Htyped [Hwaits Hsent]]].
  split; [exact Htrace|]. split; [exact Htyped|]. split; [exact Hwaits|].
  split; [exact Hsent|]. split; [reflexivity|].
  vm_compute. repeat constructor.
Defined.

Lemma append_mode_moves_to_the_end_witness :
  typingMode scenario_append = "append" /\
  selection (host (snd (typePrologue scenario_append two_lines)))
  = cursor {| line := 1; character := 1 |}.
Proof.
  assert (Hmode : typingMode scenario_append = "append") by reflexivity.
  split; [exact Hmode|].
  exact (append_mode_moves_to_the_end (H := quietHost) scenario_append two_lines
           (snd (typePrologue scenario_append two_lines))
           (fun s e => eq_refl) (fun s e => eq_refl) Hmode eq_refl).
Defined.

Lemma generated_token_is_hex_witness :
  List.length (zeroBytes 32) = 32%nat /\
  String.length (generateSecureToken zeroBytes 32) = 64%nat /\
  string_forallb isHexDigit (generateSecureToken zeroBytes 32) = true.
Proof.
  assert (Hn : List.length (zeroBytes 32) = 32%nat) by reflexivity.
  split; [exact Hn|].
  exact (generated_token_is_hex zeroBytes 32 Hn).
Defined.

Lemma not_configured_iff_misconfigured_witness :
  List.length (zeroBytes 32) = 32%nat /\
  connectionVerdict (auth_enabled misconfigured)
    (fst (processAuthSettings zeroBytes misconfigured)) anyRequest
  = Rejected 401 "Authentication token not configured on server".
Proof.
  assert (Hn : List.length (zeroBytes 32) = 32%nat) by reflexivity.
  split; [exact Hn|].
  apply (proj1 (not_configured_iff_misconfigured zeroBytes misconfigured anyRequest Hn)).
  repeat split.
Defined.

Lemma bearer_header_or_query_token_admits_witness :
  "s3cret" <> EmptyString /\
  connectionVerdict true (Some "s3cret")
    {| query_token := Some "guess"; authorization := Some "Bearer s3cret" |}
  = Accepted.
Proof.
  assert (Hne : "s3cret" <> EmptyString) by discriminate.
  split; [exact Hne|].
  exact (proj1 (bearer_header_or_query_token_admits "s3cret" (Some "guess") Hne)).
Defined.

Lemma command_is_settled_once_witness :
  client_ok newClient /\
  sent (trace (snd (onMessage
     (Some (encodeCommand {| c_id := 1; c_action := "saveFile"; c_params := no_params |}))
     two_lines)))
  = [Result (JNum 1) (JStr "Saved file: /tmp/a.txt")] /\
  pendingRequests
    (clientOnMessage (Some (Result (JNum 1) (JStr "Saved file: /tmp/a.txt")))
       (sendCommand "saveFile" no_params "Save current file" newClient)) = [] /\
  exists s,
    settled (clientOnMessage (Some (Result (JNum 1) (JStr "Saved file: /tmp/a.txt")))
               (sendCommand "saveFile" no_params "Save current file" newClient))
    = [s] /\ settled_id s = 1.
Proof.
  assert (Hok : client_ok newClient).
  { unfold client_ok, newClient. simpl. split; [lia|]. split; [constructor | tauto]. }
  assert (Hsent : sent (trace (snd (onMessage
            (Some (encodeCommand {| c_id := 1; c_action := "saveFile";
                                    c_params := no_params |})) two_lines)))
          = [Result (JNum 1) (JStr "Saved file: /tmp/a.txt")]) by reflexivity.
  split; [exact Hok|]. split; [exact Hsent|].
  exact (proj2 (command_is_settled_once (H := quietHost) "saveFile" no_params
                  "Save current file" newClient two_lines
                  [Result (JNum 1) (JStr "Saved file: /tmp/a.txt")] Hok Hsent)).
Defined.

Lemma token_argument_is_cut_at_equals_witness :
  forallb (fun arg => negb (is_token_arg arg)) ["--port=1"] = true /\
  has_char "="%char "YWJj" = false /\
  parseTokenArg (["--port=1"] ++ cat "--token=" (cat "YWJj" (String "="%char "="))
                   :: ["--token=other"]) = Some "YWJj".
Proof.
  assert (Hpre : forallb (fun arg => negb (is_token_arg arg)) ["--port=1"] = true)
    by reflexivity.
  assert (Hno : has_char "="%char "YWJj" = false) by reflexivity.
  split; [exact Hpre|]. split; [exact Hno|].
  exact (proj2 (token_argument_is_cut_at_equals "YWJj" "=" ["--port=1"]
                  ["--token=other"] Hpre Hno)).
Defined.

(** ** More on admission, reading and positioning *)

Lemma replace_first_absent (pat rep s : string) :
  occurs pat s = false -> replace_first pat rep s = s.
Proof.
  induction s as [|c s IH]; simpl; intros Hno.
  - apply orb_false_iff in Hno. destruct Hno as [Hp _]. rewrite Hp. reflexivity.
  - apply orb_false_iff in Hno. destruct Hno as [Hp Hs]. rewrite Hp, (IH Hs).
    reflexivity.
Qed.

(** X20. The authorization header needs no scheme: a header that is the
    secret itself is accepted, provided "Bearer " does not occur in the
    secret (the first occurrence of "Bearer " is removed wherever it
    stands, so such a secret can only be sent behind the scheme). *)
Theorem bare_secret_in_header_admits (secret : string) (other : option string) :
  secret <> EmptyString -> occurs "Bearer " secret = false ->
  connectionVerdict true (Some secret)
    {| query_token := other; authorization := Some secret |} = Accepted.
Proof.
  intros Hne Hno. unfold connectionVerdict, verifyClient. cbn [opt_truthy].
  rewrite (str_truthy_nonempty secret Hne). cbn [negb andb query_token].
  assert (Hh : headerToken {| query_token := other; authorization := Some secret |}
               = Some secret).
  { unfold headerToken. cbn [authorization].
    rewrite (str_truthy_nonempty secret Hne), (replace_first_absent _ _ _ Hno).
    reflexivity. }
  rewrite Hh, (proj2 (same_token_iff (Some secret) secret Hne) eq_refl).
  rewrite orb_true_r. reflexivity.
Qed.

Lemma bare_secret_in_header_admits_witness :
  "s3cret" <> EmptyString /\ occurs "Bearer " "s3cret" = false /\
  connectionVerdict true (Some "s3cret")
    {| query_token := None; authorization := Some "s3cret" |} = Accepted.
Proof.
  assert (Hne : "s3cret" <> EmptyString) by discriminate.
  assert (Hno : occurs "Bearer " "s3cret" = false) by reflexivity.
  split; [exact Hne|]. split; [exact Hno|].
  exact (bare_secret_in_header_admits "s3cret" None Hne Hno).
Defined.

Section MoreHandlers.
Context {E : Type} `{Host E}.

(** X21. [getFileContent] is a pure read in both its forms: with or
    without a path the host is after the request what it was before; and
    without a path the answer is the file name and the text of the active
    document, or "No active editor to get content from" when there is
    none. *)
Theorem getFileContent_never_changes_the_host (id : JSON) (params : Params)
    (w : World E) :
  let w' := snd (getFileContent id params w) in
  host w' = host w /\
  (opt_truthy (p_path params) = false ->
   w' = snd ((if activeTextEditor (host w)
              then sendResponse id
                     (JObj [("path", JStr (fileName (host w)));
                            ("content", JStr (getText (host w)))])
              else sendError id "No active editor to get content from") w)).
Proof.
  cbv zeta. unfold getFileContent. destruct (opt_truthy (p_path params)).
  - split; [|discriminate].
    unfold try_catch, bind, lift_outcome.
    destruct (fs_readFile (str_or (p_path params) EmptyString) (host w));
      [destruct id|]; reflexivity.
  - unfold bind, gets. cbv beta iota.
    destruct (activeTextEditor (host w)); simpl; [|auto].
    destruct id; simpl; auto.
Qed.

(** The positioning of a request whose numbers are not negative (the run
    that the clamping theorem describes, as an equation of its own). *)
Lemma prePosition_run (params : Params) (w : World E) :
  (forall s e, doc_lines (set_selection s e) = doc_lines e) ->
  doc_lines (host w) <> [] ->
  (forall rp, p_position params = Some rp -> in_document rp) ->
  (forall rs, p_selection params = Some rs ->
     in_document (raw_start rs) /\ in_document (raw_end rs)) ->
  prePosition params w
  = (match p_selection params with
     | Some rs => setSelection {| anchor := clamp (doc_lines (host w)) (raw_start rs);
                                  active := clamp (doc_lines (host w)) (raw_end rs) |}
     | None => ret tt
     end)
      (snd ((match p_position params with
             | Some rp => setSelection (cursor (clamp (doc_lines (host w)) rp))
             | None => ret tt
             end) w)).
Proof.
  intros Hlaw Hne Hpos Hsel. unfold prePosition.
  destruct (p_position params) as [rp|]; destruct (p_selection params) as [rs|].
  - specialize (Hpos rp eq_refl). destruct (Hsel rs eq_refl) as [Hs He].
    erewrite bind_ok;
      [| rewrite positionCursor_run by assumption; apply setSelection_run ].
    rewrite selectRange_run; simpl host; rewrite ?Hlaw; try assumption. reflexivity.
  - specialize (Hpos rp eq_refl).
    erewrite bind_ok;
      [| rewrite positionCursor_run by assumption; apply setSelection_run ].
    reflexivity.
  - destruct (Hsel rs eq_refl) as [Hs He].
    erewrite bind_ok; [| reflexivity ].
    rewrite selectRange_run by assumption. reflexivity.
  - reflexivity.
Qed.

Lemma clamp_inside (ls : list string) (rp : RawPosition) :
  ls <> [] -> in_document rp -> inside ls (clamp ls rp).
Proof.
  intros Hne Hin. destruct (clamp_line ls rp Hne Hin) as [Hrange Hline].
  destruct (clamp_in_document ls rp Hne Hin) as [_ Hc].
  split; [lia|]. split; [exact Hc|].
  rewrite <- clamp_character. lia.
Qed.

(** X22. After the positioning of a typing request that gives a position
    or a selection, both ends of the editor's selection are positions of
    the document: a line the document has, and a character on that line or
    just past its end (on a host where setting the selection stores it and
    leaves the text alone). *)
Theorem positioning_selects_inside_the_document (params : Params) (w : World E) :
  (forall s e, selection (set_selection s e) = s) ->
  (forall s e, doc_lines (set_selection s e) = doc_lines e) ->
  doc_lines (host w) <> [] ->
  (forall rp, p_position params = Some rp -> in_document rp) ->
  (forall rs, p_selection params = Some rs ->
     in_document (raw_start rs) /\ in_document (raw_end rs)) ->
  p_position params <> None \/ p_selection params <> None ->
  let w' := snd (prePosition params w) in
  doc_lines (host w') = doc_lines (host w) /\
  inside (doc_lines (host w')) (anchor (selection (host w'))) /\
  inside (doc_lines (host w')) (active (selection (host w'))).
Proof.
  intros Hstore Hkeep Hne Hpos Hsel Hgiven. cbv zeta.
  rewrite (prePosition_run params w Hkeep Hne Hpos Hsel).
  destruct (p_selection params) as [rs|] eqn:Hs.
  - destruct (Hsel rs eq_refl) as [Ha Hb].
    rewrite setSelection_run. cbn [snd host]. rewrite Hstore, Hkeep.
    assert (Hsame : doc_lines (host (snd ((match p_position params with
                       | Some rp => setSelection (cursor (clamp (doc_lines (host w)) rp))
                       | None => ret tt
                       end) w))) = doc_lines (host w)).
    { destruct (p_position params); [rewrite setSelection_run; apply Hkeep | reflexivity]. }
    rewrite Hsame. cbn [anchor active].
    split; [reflexivity|]. split; apply clamp_inside; assumption.
  - destruct (p_position params) as [rp|] eqn:Hp; [|destruct Hgiven; congruence].
    cbn [ret snd]. rewrite setSelection_run. cbn [snd host].
    rewrite Hstore, Hkeep. cbn [cursor anchor active].
    split; [reflexivity|]. split; apply clamp_inside; auto.
Qed.

End MoreHandlers.

Lemma positioning_selects_inside_the_document_witness :
  doc_lines (host two_lines) <> [] /\
  inside ["xy"; "z"]
    (anchor (selection (host (snd (prePosition scenario_positions two_lines))))) /\
  inside ["xy"; "z"]
    (active (selection (host (snd (prePosition scenario_positions two_lines))))).
Proof.
  assert (Hne : doc_lines (host two_lines) <> []) by discriminate.
  split; [exact Hne|].
  refine (proj2 (positioning_selects_inside_the_document (H := quietHost)
                   scenario_positions two_lines
                   (fun s e => eq_refl) (fun s e => eq_refl) Hne _ _ _)).
  - intros rp Heq. injection Heq as <-. split; simpl; lia.
  - intros rs Heq. injection Heq as <-. repeat split; simpl; lia.
  - left. discriminate.
Defined.

